(** * livestack: the recommendation backend and its dashboard

    A shallow embedding of the two request handlers of [backend/main.py],
    [recommend] and [rate], together with the pieces of the Python runtime
    they call ([random.choice], [uuid.uuid4], [datetime.utcnow().isoformat()],
    [dict.get], [print]), and of the Streamlit script [frontend/app.py] up to
    the end of its content column ([fetch_recommendation], [send_rating],
    [init_state], [log_event] and the part of [main] that handles the
    buttons), followed by the properties of the handlers and of the script. *)

From Stdlib Require Import ZArith String Ascii List Lia Floats.SpecFloat.
From stdpp Require Import base gmap strings list fin_maps.
Import ListNotations.

Set Warnings "-register-all".

(** ** Python values *)

(** The values a JSON body or a response dictionary can hold.  A nested JSON
    object keeps its items in insertion order, which is the order [repr]
    prints them in; the dictionaries the handlers themselves index
    ([payload], the catalog entries, the response) are finite maps. *)
Inductive value : Type :=
  | VNone
  | VBool (b : bool)
  | VInt (z : Z)
  | VFloat (f : spec_float)
  | VStr (s : string)
  | VList (l : list value)
  | VDict (items : list (string * value)).

(** [x is None] *)
Definition is_None (v : value) : bool :=
  match v with VNone => true | _ => false end.

(** [bool(x)]: Python truthiness. *)
Definition truthy (v : value) : bool :=
  match v with
  | VNone => false
  | VBool b => b
  | VInt z => negb (z =? 0)%Z
  | VFloat (S754_zero _) => false
  | VFloat _ => true
  | VStr s => negb (String.eqb s "")
  | VList l => match l with [] => false | _ => true end
  | VDict d => match d with [] => false | _ => true end
  end.

(** [d.get(k)]: the value, or [None] when the key is missing. *)
Definition dict_get (d : gmap string value) (k : string) : value :=
  match d !! k with Some v => v | None => VNone end.

(** ** The world a request runs in *)

(** A naive [datetime]: the fields of a calendar instant, no time zone. *)
Record datetime := mkDatetime {
  year : Z; month : Z; day : Z;
  hour : Z; minute : Z; second : Z; microsecond : Z }.

(** What lies outside the process: the 32-bit words that the process-wide
    Mersenne Twister will put out, the bytes of the operating system's
    entropy source, the readings of the UTC clock, the texts that the
    standard-output stream can encode (its encoding and error handler), and
    the lines written to it.  Each tape is read at its cursor, which then
    advances.  A run reads finitely many words of the generator: [random_tape]
    holds them, and a word read past its end is zero. *)
Record World := mkWorld {
  random_tape : list Z;
  random_pos : nat;
  urandom_tape : nat -> Z;
  urandom_pos : nat;
  clock_tape : nat -> datetime;
  clock_pos : nat;
  stdout_encodes : string -> bool;
  stdout : list string }.

Definition skip_random (n : nat) (w : World) : World :=
  mkWorld (random_tape w) (random_pos w + n) (urandom_tape w) (urandom_pos w)
          (clock_tape w) (clock_pos w) (stdout_encodes w) (stdout w).

Definition tick_random (w : World) : World := skip_random 1 w.

Definition skip_urandom (n : nat) (w : World) : World :=
  mkWorld (random_tape w) (random_pos w) (urandom_tape w) (urandom_pos w + n)
          (clock_tape w) (clock_pos w) (stdout_encodes w) (stdout w).

Definition tick_clock (w : World) : World :=
  mkWorld (random_tape w) (random_pos w) (urandom_tape w) (urandom_pos w)
          (clock_tape w) (S (clock_pos w)) (stdout_encodes w) (stdout w).

Definition write_stdout (line : string) (w : World) : World :=
  mkWorld (random_tape w) (random_pos w) (urandom_tape w) (urandom_pos w)
          (clock_tape w) (clock_pos w) (stdout_encodes w) (stdout w ++ [line]).

Inductive exn : Type :=
  | IndexError
  | KeyError (k : string)
  | UnicodeEncodeError.

Inductive result (A : Type) : Type :=
  | Ok (a : A)
  | Raise (e : exn).
Arguments Ok {A} a.
Arguments Raise {A} e.

(** Computations that read and write the world and may raise. *)
Definition Py (A : Type) : Type := World -> result A * World.

Definition ret {A} (a : A) : Py A := fun w => (Ok a, w).
Definition raise {A} (e : exn) : Py A := fun w => (Raise e, w).
Definition bind {A B} (c : Py A) (k : A -> Py B) : Py B :=
  fun w => match c w with
           | (Ok a, w') => k a w'
           | (Raise e, w') => (Raise e, w')
           end.

Declare Scope py_scope.
Delimit Scope py_scope with py.
Notation "x <- c ;; k" := (bind c (fun x => k))
  (at level 100, c at next level, right associativity) : py_scope.
Notation "c ;;; k" := (bind c (fun _ => k))
  (at level 100, right associativity) : py_scope.
Local Open Scope py_scope.

(** ** [random] *)

(** [genrand_uint32]: the next 32-bit word of the Mersenne Twister. *)
Definition genrand_uint32 : Py Z := fun w =>
  (Ok (nth (random_pos w) (random_tape w) 0 mod 2 ^ 32)%Z, tick_random w).

(** [n.bit_length()] *)
Definition bit_length (n : Z) : Z :=
  if (n =? 0)%Z then 0%Z else (Z.log2 (Z.abs n) + 1)%Z.

(** The loop of [getrandbits] for [k > 32]: one word for every 32 bits, the
    least significant first; the last word gives its top bits. *)
Fixpoint getrandbits_words (words : nat) (k : Z) : Py Z :=
  match words with
  | O => ret 0%Z
  | S words' =>
      r <- genrand_uint32 ;;
      let r := if (k <? 32)%Z then Z.shiftr r (32 - k) else r in
      rest <- getrandbits_words words' (k - 32) ;;
      ret (Z.lor r (Z.shiftl rest 32))
  end.

(** [random.getrandbits(k)] for [k >= 0]: up to 32 bits are the top bits of
    one word. *)
Definition getrandbits (k : Z) : Py Z :=
  if (k =? 0)%Z then ret 0%Z
  else if (k <=? 32)%Z then
    r <- genrand_uint32 ;; ret (Z.shiftr r (32 - k))
  else getrandbits_words (Z.to_nat ((k - 1) / 32 + 1)) k.

(** [while r >= n: r = getrandbits(k)], then [return r].  The loop is run
    for at most [fuel] rounds; [randbelow_total] shows that the rounds
    [randbelow] allows are never used up. *)
Fixpoint randbelow_loop (fuel : nat) (n k r : Z) : Py Z :=
  if (r <? n)%Z then ret r
  else match fuel with
       | O => ret r
       | S fuel' => r' <- getrandbits k ;; randbelow_loop fuel' n k r'
       end.

(** [random._randbelow(n)], defined for [n > 0]: draw [n.bit_length()] bits
    until the number drawn is below [n].  Past the end of the tape every
    word is zero, which is below [n], so the loop needs no more rounds than
    there are words left. *)
Definition randbelow (n : Z) : Py Z := fun w =>
  let k := bit_length n in
  (r <- getrandbits k ;;
   randbelow_loop (S (length (random_tape w) - random_pos w)) n k r) w.

(** [random.choice(seq)]: [IndexError] on an empty sequence, otherwise
    [seq[randbelow(len(seq))]]. *)
Definition choice {A} (seq : list A) : Py A :=
  match seq with
  | [] => raise IndexError
  | _ => i <- randbelow (Z.of_nat (length seq)) ;;
         match seq !! Z.to_nat i with
         | Some x => ret x
         | None => raise IndexError
         end
  end.

(** ** The catalog and the known edges *)

Definition REGIONS : list string := ["edge-us-1"; "edge-eu-1"; "edge-apac-1"].

(** A catalog entry, the dictionary [{"title": ..., "body": ...}]. *)
Definition content_item (title body : string) : gmap string value :=
  <["body" := VStr body]> (<["title" := VStr title]> ∅).

Definition VIDEOS : list (gmap string value) :=
  [ content_item "How TikTok Recommends Videos"
                 "A deep dive into real-time recommendation engines.";
    content_item "Distributed Systems 101"
                 "What every engineer should know about distributed computing.";
    content_item "Murdoch vs Redstone"
                 "The history of media empires and power.";
    content_item "Building a CDN Simulator"
                 "Simulating multi-edge routing and latency.";
    content_item "Ellison's AI Cluster"
                 "Inside Oracle's 1.2 billion-watt GPU brain." ].

(** [d[k]]: [KeyError] when the key is missing. *)
Definition getitem (d : gmap string value) (k : string) : Py value :=
  match d !! k with
  | Some v => ret v
  | None => raise (KeyError k)
  end.

(** ** Formatting integers *)

(** The character of a digit below 16, lower case as [%x] and [%d] print. *)
Definition digit_char (d : Z) : ascii :=
  match String.get (Z.to_nat d) "0123456789abcdef" with
  | Some c => c
  | None => "0"%char
  end.

(** The digits of a non-negative [n] in [base], most significant first,
    without leading zeros ([0] prints as one digit). *)
Fixpoint digits_of (base : Z) (fuel : nat) (n : Z) : string :=
  match fuel with
  | O => ""
  | S f => (if (n <? base)%Z then "" else digits_of base f (n / base)%Z)
           +:+ String (digit_char (n mod base)) ""
  end.

(** No number has more digits than bits. *)
Definition digit_fuel (n : Z) : nat := S (Z.to_nat (Z.log2 n)).

Fixpoint zeros (k : nat) : string :=
  match k with O => "" | S k' => String "0" (zeros k') end.

(** [s.zfill(width)] for an unsigned digit string. *)
Definition zfill (width : nat) (s : string) : string :=
  zeros (width - String.length s) +:+ s.

(** ['%0<width>d' % n] and ['%0<width>x' % n]: the sign, then the digits
    padded with zeros up to the width. *)
Definition format_0 (base : Z) (width : nat) (n : Z) : string :=
  if (n <? 0)%Z
  then "-" +:+ zfill (width - 1) (digits_of base (digit_fuel (- n)) (- n))
  else zfill width (digits_of base (digit_fuel n) n).

(** [str(n)] for an [int]. *)
Definition str_int (n : Z) : string := format_0 10 0 n.

(** ** [uuid] *)

(** [os.urandom(n)]: the next [n] bytes of the entropy source. *)
Definition urandom (n : nat) : Py (list Z) := fun w =>
  (Ok (map (fun i => (urandom_tape w (urandom_pos w + i) mod 256)%Z) (seq 0 n)),
   skip_urandom n w).

(** [int.from_bytes(bs, 'big')] *)
Definition int_from_bytes (bs : list Z) : Z :=
  fold_left (fun acc b => acc * 256 + b)%Z bs 0%Z.

(** [UUID(bytes=bs, version=version).int]: the RFC 4122 variant and the
    version number overwrite six of the 128 bits. *)
Definition UUID (bs : list Z) (version : Z) : Z :=
  let int := int_from_bytes bs in
  let int := Z.land int (Z.lnot (Z.shiftl 0xc000 48)) in
  let int := Z.lor int (Z.shiftl 0x8000 48) in
  let int := Z.land int (Z.lnot (Z.shiftl 0xf000 64)) in
  Z.lor int (Z.shiftl version 76).

(** [uuid.uuid4()] *)
Definition uuid4 : Py Z :=
  bs <- urandom 16 ;; ret (UUID bs 4).

(** [s[i:j]] for [0 <= i <= j]. *)
Definition slice (i j : nat) (s : string) : string := substring i (j - i) s.

(** [str(u)] for a UUID with integer value [int]. *)
Definition UUID_str (int : Z) : string :=
  let hex := format_0 16 32 int in
  slice 0 8 hex +:+ "-" +:+ slice 8 12 hex +:+ "-" +:+ slice 12 16 hex +:+ "-"
  +:+ slice 16 20 hex +:+ "-" +:+ slice 20 (String.length hex) hex.

(** ** [datetime] *)

(** [datetime.utcnow()]: the next reading of the UTC clock. *)
Definition utcnow : Py datetime := fun w =>
  (Ok (clock_tape w (clock_pos w)), tick_clock w).

(** [d.isoformat()]: [YYYY-MM-DDTHH:MM:SS], followed by [.ffffff] when the
    microsecond is not zero.  A naive datetime prints no UTC offset. *)
Definition isoformat (d : datetime) : string :=
  format_0 10 4 (year d) +:+ "-" +:+ format_0 10 2 (month d) +:+ "-"
  +:+ format_0 10 2 (day d) +:+ "T"
  +:+ format_0 10 2 (hour d) +:+ ":" +:+ format_0 10 2 (minute d) +:+ ":"
  +:+ format_0 10 2 (second d)
  +:+ (if (microsecond d =? 0)%Z then ""
       else "." +:+ format_0 10 6 (microsecond d)).

(** ** [GET /recommend] *)

Definition recommend (server_hint : option string) : Py (gmap string value) :=
  server <- match server_hint with
            | None => choice REGIONS
            | Some hint => ret hint
            end ;;
  video <- choice VIDEOS ;;
  content_id <- uuid4 ;;
  title <- getitem video "title" ;;
  body <- getitem video "body" ;;
  now <- utcnow ;;
  ret (<["timestamp" := VStr (isoformat now)]>
       (<["server_region" := VStr server]>
        (<["server_id" := VStr server]>
         (<["body" := body]>
          (<["title" := title]>
           (<["content_id" := VStr (UUID_str content_id)]> ∅)))))).

(** ** [POST /rate] *)

(** [print(line)]: one more line on standard output; the stream encodes
    the text before it writes anything, and raises [UnicodeEncodeError] when
    it cannot. *)
Definition print (line : string) : Py unit := fun w =>
  if stdout_encodes w line then (Ok tt, write_stdout line w)
  else (Raise UnicodeEncodeError, w).

Section Rate.

(** [repr] of a [float] and of a [str] are the interpreter's; the handler
    is read for any such pair of printers. *)
Variable repr_float : spec_float -> string.
Variable repr_str : string -> string.

(** [repr(v)] *)
Fixpoint py_repr (v : value) : string :=
  match v with
  | VNone => "None"
  | VBool true => "True"
  | VBool false => "False"
  | VInt z => str_int z
  | VFloat f => repr_float f
  | VStr s => repr_str s
  | VList l => "[" +:+ String.concat ", " (map py_repr l) +:+ "]"
  | VDict d =>
      "{" +:+ String.concat ", "
                (map (fun kv => repr_str (fst kv) +:+ ": " +:+ py_repr (snd kv)) d)
      +:+ "}"
  end.

(** [str(v)], which is what an f-string field prints. *)
Definition py_str (v : value) : string :=
  match v with
  | VStr s => s
  | _ => py_repr v
  end.

Definition rate (payload : gmap string value) : Py (gmap string value) :=
  let content_id := dict_get payload "content_id" in
  let rating := dict_get payload "rating" in
  if negb (truthy content_id) || is_None rating
  then ret (<["message" := VStr "Invalid payload"]>
            (<["status" := VStr "error"]> ∅))
  else
    print ("[RATE] content_id=" +:+ py_str content_id
           +:+ " rating=" +:+ py_str rating) ;;;
    ret (<["status" := VStr "ok"]> ∅).

(** The line a successful submission prints. *)
Definition rate_line (payload : gmap string value) : string :=
  "[RATE] content_id=" +:+ py_str (dict_get payload "content_id")
  +:+ " rating=" +:+ py_str (dict_get payload "rating").

End Rate.

(** ** A process serving several requests *)

(** The recommendation requests of one process, served one after the other
    on the same world. *)
Fixpoint serve (hints : list (option string)) : Py (list (gmap string value)) :=
  match hints with
  | [] => ret []
  | hint :: rest =>
      r <- recommend hint ;;
      rs <- serve rest ;;
      ret (r :: rs)
  end.

(** The UUID that the [k]-th [uuid4()] call after [w] draws from the entropy
    source: each call consumes sixteen bytes. *)
Definition uuid_at (w : World) (k : nat) : Z :=
  UUID (map (fun i => (urandom_tape w (urandom_pos w + 16 * k + i) mod 256)%Z)
            (seq 0 16)) 4.

(** ** Reading an ISO-8601 timestamp back *)

(** The reader below reads a text with no designator of a time zone, in the
    ISO-8601 extended format [YYYY-MM-DDTHH:MM:SS[.ffffff]], back into its
    calendar fields; it accepts only the fields that [datetime] itself
    accepts. *)

Definition is_leap (y : Z) : bool :=
  ((y mod 4 =? 0) && (negb (y mod 100 =? 0) || (y mod 400 =? 0)))%Z.

Definition days_in_month (y m : Z) : Z :=
  if (m =? 2)%Z then (if is_leap y then 29 else 28)%Z
  else if ((m =? 4) || (m =? 6) || (m =? 9) || (m =? 11))%Z then 30%Z
  else 31%Z.

(** The range checks of the [datetime] constructor. *)
Definition valid_datetime (d : datetime) : bool :=
  ((1 <=? year d) && (year d <=? 9999) &&
   (1 <=? month d) && (month d <=? 12) &&
   (1 <=? day d) && (day d <=? days_in_month (year d) (month d)) &&
   (0 <=? hour d) && (hour d <=? 23) &&
   (0 <=? minute d) && (minute d <=? 59) &&
   (0 <=? second d) && (second d <=? 59) &&
   (0 <=? microsecond d) && (microsecond d <=? 999999))%Z.

Definition decimal_val (c : ascii) : option Z :=
  let n := nat_of_ascii c in
  if (48 <=? n) && (n <=? 57) then Some (Z.of_nat (n - 48)) else None.

(** Read exactly [k] decimal digits. *)
Fixpoint read_digits (k : nat) (acc : Z) (s : string) : option (Z * string) :=
  match k with
  | O => Some (acc, s)
  | S k' =>
      match s with
      | String c s' =>
          match decimal_val c with
          | Some d => read_digits k' (acc * 10 + d)%Z s'
          | None => None
          end
      | EmptyString => None
      end
  end.

Definition expect (c : ascii) (s : string) : option string :=
  match s with
  | String c' s' => if Ascii.eqb c c' then Some s' else None
  | EmptyString => None
  end.

Definition read_fraction (s : string) : option Z :=
  match s with
  | EmptyString => Some 0%Z
  | String c s' =>
      if Ascii.eqb c "." then
        match read_digits 6 0 s' with
        | Some (us, EmptyString) => Some us
        | _ => None
        end
      else None
  end.

Definition parse_iso8601 (s : string) : option datetime :=
  '(y, s) ← read_digits 4 0 s;
  s ← expect "-" s;
  '(mo, s) ← read_digits 2 0 s;
  s ← expect "-" s;
  '(d, s) ← read_digits 2 0 s;
  s ← expect "T" s;
  '(h, s) ← read_digits 2 0 s;
  s ← expect ":" s;
  '(mi, s) ← read_digits 2 0 s;
  s ← expect ":" s;
  '(se, s) ← read_digits 2 0 s;
  us ← read_fraction s;
  let dt := mkDatetime y mo d h mi se us in
  if valid_datetime dt then Some dt else None.

(** * The dashboard ([frontend/app.py]) *)

(** ** The browser session a script run works on *)

Inductive request : Type :=
  | GET (url : string) (params : gmap string value)
  | POST (url : string) (body : gmap string value).

(** [resp.json()]: the decoded body, or the message of the decoding error. *)
Inductive json_result : Type :=
  | JsonError (msg : string)
  | Json (v : value).

Record http_response := mkResponse {
  status_code : Z;
  text : string;
  json : json_result }.

(** What [client.get] and [client.post] do: raise (the message is [str(e)])
    or return a response. *)
Inductive http_outcome : Type :=
  | HttpError (msg : string)
  | HttpResponse (resp : http_response).

(** A call to a drawing function of Streamlit, with its arguments. *)
Record ui_call := mkCall { widget : string; args : list value }.

(** What a run of the script reads and writes: Streamlit's session state, the
    calls that draw the page, the widgets the user has operated (the buttons
    clicked, by key, and the index picked in the select box), the readings of
    the performance counter and of the UTC clock, and the network, which
    answers the [k]-th request sent according to what the request is. *)
Record Browser := mkBrowser {
  session_state : gmap string value;
  screen : list ui_call;
  clicked : string -> bool;
  picked : nat;
  perf_tape : nat -> spec_float;
  perf_pos : nat;
  wall_tape : nat -> datetime;
  wall_pos : nat;
  network : nat -> request -> http_outcome;
  sent : list request }.

Definition with_session (s : gmap string value) (b : Browser) : Browser :=
  mkBrowser s (screen b) (clicked b) (picked b) (perf_tape b) (perf_pos b)
            (wall_tape b) (wall_pos b) (network b) (sent b).

Definition draw (c : ui_call) (b : Browser) : Browser :=
  mkBrowser (session_state b) (screen b ++ [c]) (clicked b) (picked b)
            (perf_tape b) (perf_pos b) (wall_tape b) (wall_pos b)
            (network b) (sent b).

Definition tick_perf (b : Browser) : Browser :=
  mkBrowser (session_state b) (screen b) (clicked b) (picked b)
            (perf_tape b) (S (perf_pos b)) (wall_tape b) (wall_pos b)
            (network b) (sent b).

Definition tick_wall (b : Browser) : Browser :=
  mkBrowser (session_state b) (screen b) (clicked b) (picked b)
            (perf_tape b) (perf_pos b) (wall_tape b) (S (wall_pos b))
            (network b) (sent b).

Definition record_request (r : request) (b : Browser) : Browser :=
  mkBrowser (session_state b) (screen b) (clicked b) (picked b)
            (perf_tape b) (perf_pos b) (wall_tape b) (wall_pos b)
            (network b) (sent b ++ [r]).

Inductive ui_exn : Type :=
  | AttributeError (type attr : string).

Inductive ui_result (A : Type) : Type :=
  | Done (a : A)
  | Crash (e : ui_exn).
Arguments Done {A} a.
Arguments Crash {A} e.

(** Computations of a script run. *)
Definition UI (A : Type) : Type := Browser -> ui_result A * Browser.

Definition ui_ret {A} (a : A) : UI A := fun b => (Done a, b).
Definition ui_crash {A} (e : ui_exn) : UI A := fun b => (Crash e, b).
Definition ui_bind {A B} (c : UI A) (k : A -> UI B) : UI B :=
  fun b => match c b with
           | (Done a, b') => k a b'
           | (Crash e, b') => (Crash e, b')
           end.

Declare Scope ui_scope.
Delimit Scope ui_scope with ui.
Notation "x <- c ;; k" := (ui_bind c (fun x => k))
  (at level 100, c at next level, right associativity) : ui_scope.
Notation "c ;;; k" := (ui_bind c (fun _ => k))
  (at level 100, right associativity) : ui_scope.

Section Frontend.

Local Open Scope ui_scope.

Variable repr_float : spec_float -> string.
Variable repr_str : string -> string.

(** ** Streamlit and the runtime *)

(** [st.<widget>(args)] for a function that only draws. *)
Definition st_call (w : string) (a : list value) : UI unit := fun b =>
  (Done tt, draw (mkCall w a) b).

(** [st.button(label)] and [st.button(label, key=key)]: draws the button and
    tells whether the user has just clicked it.  A button is known by its
    key, or by its label when it has none; one that has a key is registered
    in the session state, which from then on holds its value under the key. *)
Definition st_button (label : string) (key : option string) : UI bool := fun b =>
  match key with
  | Some k =>
      (Done (clicked b k),
       draw (mkCall "button" [VStr label; VStr k])
            (with_session (<[k := VBool (clicked b k)]> (session_state b)) b))
  | None =>
      (Done (clicked b label), draw (mkCall "button" [VStr label; VNone]) b)
  end.

(** [st.sidebar.selectbox(label, options, index=index)]: the option the user
    picked, the one at [index] while nothing valid is picked. *)
Definition st_selectbox (label : string) (options : list string) (index : nat)
  : UI string := fun b =>
  (Done (match options !! picked b with
         | Some o => o
         | None => nth index options ""
         end),
   draw (mkCall "sidebar.selectbox"
           [VStr label; VList (map VStr options); VInt (Z.of_nat index)]) b).

(** [key in st.session_state] *)
Definition session_has (key : string) : UI bool := fun b =>
  (Done (bool_decide (is_Some (session_state b !! key))), b).

(** [st.session_state.<key>]: [AttributeError] when the key is not set. *)
Definition session_get (key : string) : UI value := fun b =>
  match session_state b !! key with
  | Some v => (Done v, b)
  | None => (Crash (AttributeError "SessionState" key), b)
  end.

(** [st.session_state.<key> = v] *)
Definition session_set (key : string) (v : value) : UI unit := fun b =>
  (Done tt, with_session (<[key := v]> (session_state b)) b).

(** [time.perf_counter()] *)
Definition perf_counter : UI spec_float := fun b =>
  (Done (perf_tape b (perf_pos b)), tick_perf b).

(** [datetime.utcnow()] in the dashboard process. *)
Definition wall_utcnow : UI datetime := fun b =>
  (Done (wall_tape b (wall_pos b)), tick_wall b).

(** [client.get(url, params=...)] and [client.post(url, json=...)] on a
    client that lives for this one request. *)
Definition http (r : request) : UI http_outcome := fun b =>
  (Done (network b (length (sent b)) r), record_request r b).

(** [type(v).__name__] *)
Definition type_name (v : value) : string :=
  match v with
  | VNone => "NoneType"
  | VBool _ => "bool"
  | VInt _ => "int"
  | VFloat _ => "float"
  | VStr _ => "str"
  | VList _ => "list"
  | VDict _ => "dict"
  end.

Fixpoint items_get (items : list (string * value)) (k : string) : option value :=
  match items with
  | [] => None
  | (k', v) :: rest => if String.eqb k' k then Some v else items_get rest k
  end.

(** [v.get(k, default)]: only a dictionary has the method. *)
Definition value_get (v : value) (k : string) (default : value) : UI value :=
  match v with
  | VDict items =>
      ui_ret (match items_get items k with Some x => x | None => default end)
  | _ => ui_crash (AttributeError (type_name v) "get")
  end.

(** Binary64 arithmetic, rounding to nearest even. *)
Definition float_of_int (z : Z) : spec_float := binary_normalize 53 1024 z 0 false.
Definition float_sub (x y : spec_float) : spec_float := SFsub 53 1024 x y.
Definition float_mul (x y : spec_float) : spec_float := SFmul 53 1024 x y.

(** [(stop - start) * 1000.0] *)
Definition elapsed_ms (start stop : spec_float) : spec_float :=
  float_mul (float_sub stop start) (float_of_int 1000).

(** ** HTTP helpers *)

Definition BACKEND_BASE_URL : string := "http://localhost:8000".

(** The truth value of an [Optional[str]]. *)
Definition hint_truthy (server_hint : option string) : bool :=
  match server_hint with
  | Some s => negb (String.eqb s "")
  | None => false
  end.

(** An [Optional[str]] as a value. *)
Definition hint_value (server_hint : option string) : value :=
  match server_hint with
  | Some s => VStr s
  | None => VNone
  end.

Definition fetch_recommendation (server_hint : option string) : UI (value * value) :=
  let params : gmap string value :=
    if hint_truthy server_hint
    then <["server_hint" := hint_value server_hint]> ∅
    else ∅ in
  start <- perf_counter ;;
  outcome <- http (GET (BACKEND_BASE_URL +:+ "/recommend") params) ;;
  match outcome with
  | HttpError e =>
      st_call "error" [VStr ("Failed to contact backend: " +:+ e)] ;;;
      ui_ret (VNone, VNone)
  | HttpResponse resp =>
      stop <- perf_counter ;;
      let latency := elapsed_ms start stop in
      if negb (status_code resp =? 200)%Z then
        st_call "error" [VStr ("Backend returned status " +:+ str_int (status_code resp)
                               +:+ ": " +:+ text resp)] ;;;
        ui_ret (VNone, VNone)
      else
        match json resp with
        | JsonError e =>
            st_call "error" [VStr ("Failed to decode backend JSON: " +:+ e)] ;;;
            ui_ret (VNone, VNone)
        | Json data => ui_ret (data, VFloat latency)
        end
  end.

Definition send_rating (content_id : value) (rating : Z) : UI bool :=
  let payload : gmap string value :=
    <["rating" := VInt rating]> (<["content_id" := content_id]> ∅) in
  outcome <- http (POST (BACKEND_BASE_URL +:+ "/rate") payload) ;;
  match outcome with
  | HttpError e =>
      st_call "error" [VStr ("Failed to send rating: " +:+ e)] ;;;
      ui_ret false
  | HttpResponse resp =>
      if negb (status_code resp =? 200)%Z then
        st_call "error" [VStr ("Backend rating error (" +:+ str_int (status_code resp)
                               +:+ "): " +:+ text resp)] ;;;
        ui_ret false
      else ui_ret true
  end.

(** ** State helpers *)

(** One [if key not in st.session_state: st.session_state.<key> = v]. *)
Definition init_key (key : string) (v : value) : UI unit :=
  present <- session_has key ;;
  if present then ui_ret tt else session_set key v.

Definition init_state : UI unit :=
  init_key "current_rec" VNone ;;;
  init_key "last_latency_ms" VNone ;;;
  init_key "logs" (VList []).

(** [logs.append(event)] changes the list that [st.session_state.logs] holds;
    only a list has the method. *)
Definition log_event (event : value) : UI unit :=
  logs <- session_get "logs" ;;
  match logs with
  | VList l => session_set "logs" (VList (l ++ [event]))
  | _ => ui_crash (AttributeError (type_name logs) "append")
  end.

(** ** The page, up to the content column *)

Definition SERVER_OPTIONS : list string :=
  ["auto"; "edge-us-1"; "edge-eu-1"; "edge-apac-1"].

(** The body of [if st.button("Next recommendation")]. *)
Definition next_recommendation (server_hint : string) : UI unit :=
  let hint := if String.eqb server_hint "auto" then None else Some server_hint in
  fetched <- fetch_recommendation hint ;;
  let rec := fst fetched in
  let latency_ms := snd fetched in
  if is_None rec then
    st_call "error" [VStr "Failed to fetch recommendation."]
  else
    session_set "current_rec" rec ;;;
    session_set "last_latency_ms" latency_ms ;;;
    now <- wall_utcnow ;;
    content_id <- value_get rec "content_id" VNone ;;
    title <- value_get rec "title" VNone ;;
    server_id <- value_get rec "server_id" VNone ;;
    server_region <- value_get rec "server_region" VNone ;;
    log_event (VDict [("time", VStr (isoformat now));
                      ("event", VStr "recommend");
                      ("content_id", content_id);
                      ("title", title);
                      ("server_id", server_id);
                      ("server_region", server_region);
                      ("latency_ms", latency_ms);
                      ("rating", VNone);
                      ("success", VBool true)]).

(** The body of the loop over the five rating buttons. *)
Definition rating_button (current : value) (rating : Z) : UI unit :=
  pressed <- st_button (str_int rating) (Some ("rate_" +:+ str_int rating)) ;;
  if pressed then
    content_id <- value_get current "content_id" VNone ;;
    ok <- (if negb (truthy content_id) then
             st_call "error"
               [VStr "Current content has no content_id; cannot send rating."] ;;;
             ui_ret false
           else send_rating content_id rating) ;;
    now <- wall_utcnow ;;
    title <- value_get current "title" VNone ;;
    server_id <- value_get current "server_id" VNone ;;
    server_region <- value_get current "server_region" VNone ;;
    latency_ms <- session_get "last_latency_ms" ;;
    log_event (VDict [("time", VStr (isoformat now));
                      ("event", VStr "rate");
                      ("content_id", content_id);
                      ("title", title);
                      ("server_id", server_id);
                      ("server_region", server_region);
                      ("latency_ms", latency_ms);
                      ("rating", VInt rating);
                      ("success", VBool ok)]) ;;;
    if ok then st_call "success" [VStr ("Recorded rating: " +:+ str_int rating)]
    else st_call "error" [VStr "Failed to submit rating."]
  else ui_ret tt.

(** [for x in xs: body(x)] *)
Fixpoint for_each {A} (xs : list A) (body : A -> UI unit) : UI unit :=
  match xs with
  | [] => ui_ret tt
  | x :: rest => body x ;;; for_each rest body
  end.

(** The content column: the [with col_main:] block of [main]. *)
Definition content_column (server_hint : string) : UI unit :=
  st_call "subheader" [VStr "Recommended Content"] ;;;
  next <- st_button "Next recommendation" None ;;
  (if next then next_recommendation server_hint else ui_ret tt) ;;;
  current <- session_get "current_rec" ;;
  if is_None current then
    st_call "info" [VStr "Click **Next recommendation** to load content."]
  else
    title <- value_get current "title" (VStr "Untitled") ;;
    st_call "markdown" [VStr ("### " +:+ py_str repr_float repr_str title)] ;;;
    body <- value_get current "body" (VStr "") ;;
    (if truthy body then st_call "write" [body]
     else st_call "write" [VStr "_No body provided by backend._"]) ;;;
    st_call "markdown" [VStr "---"] ;;;
    st_call "markdown" [VStr "### Rate this content"] ;;;
    st_call "columns" [VInt 5] ;;;
    for_each [1; 2; 3; 4; 5]%Z (rating_button current).

(** [main] from its first line to the end of the content column. *)
Definition main_content : UI unit :=
  st_call "set_page_config" [VStr "LiveStack Frontend"; VStr "wide"] ;;;
  init_state ;;;
  st_call "title" [VStr "LiveStack Lab – Recommendation Playground"] ;;;
  st_call "sidebar.header" [VStr "Simulated CDN / Server"] ;;;
  server_hint <- st_selectbox "Choose server / region" SERVER_OPTIONS 0 ;;
  st_call "sidebar.markdown"
    [VStr ("The selected value is sent to the backend as `server_hint`. "
           +:+ "Use this to simulate different CDN edges.")] ;;;
  st_call "columns" [VList [VInt 2; VInt 1]] ;;;
  content_column server_hint.

End Frontend.

(** ** Vocabulary of the statements *)

(** The response dictionary of [recommend], as the literal builds it. *)
Definition response (cid title body server ts : string) : gmap string value :=
  <["timestamp" := VStr ts]>
  (<["server_region" := VStr server]>
   (<["server_id" := VStr server]>
    (<["body" := VStr body]>
     (<["title" := VStr title]>
      (<["content_id" := VStr cid]> ∅))))).

(** The words of the generator that have not been read yet. *)
Definition remaining (w : World) : list Z :=
  skipn (random_pos w) (random_tape w).

(** The top [k] bits of a 32-bit word. *)
Definition top_bits (k x : Z) : Z := Z.shiftr (x mod 2 ^ 32) (32 - k).

(** Rejection sampling over the words [ws]: the first [k]-bit outcome below
    [n], and the number of words read to reach it. *)
Fixpoint first_below (n k : Z) (ws : list Z) : Z * nat :=
  match ws with
  | [] => (0%Z, 1)
  | x :: rest =>
      if (top_bits k x <? n)%Z then (top_bits k x, 1)
      else (fst (first_below n k rest), S (snd (first_below n k rest)))
  end.

(** The index that a choice among [n] items draws on [w], and the number of
    words of the generator it reads. *)
Definition drawn (n : nat) (w : World) : nat :=
  Z.to_nat (fst (first_below (Z.of_nat n) (bit_length (Z.of_nat n)) (remaining w))).

Definition words_drawn (n : nat) (w : World) : nat :=
  snd (first_below (Z.of_nat n) (bit_length (Z.of_nat n)) (remaining w)).

(** The world after a choice among [n] items. *)
Definition after_choice (n : nat) (w : World) : World :=
  skip_random (words_drawn n w) w.

(** The world after the edge has been resolved. *)
Definition after_resolve (hint : option string) (w : World) : World :=
  match hint with None => after_choice (length REGIONS) w | Some _ => w end.

(** The world [w] with the generator started over on the words [ws]. *)
Definition with_random (ws : list Z) (w : World) : World :=
  mkWorld ws 0 (urandom_tape w) (urandom_pos w) (clock_tape w) (clock_pos w)
          (stdout_encodes w) (stdout w).

(** The 32-bit word whose top two bits are [d] and whose thirty other bits
    are those of [low]. *)
Definition word_of (d low : Z) : Z :=
  Z.lor (Z.shiftl d 30) (Z.land low (Z.ones 30)).

(** The tape whose [i]-th word has the top bits [ds !! i] and the other bits
    of [low i]. *)
Fixpoint tape_of (low : nat -> Z) (ds : list Z) : list Z :=
  match ds with
  | [] => []
  | d :: rest => word_of d (low 0) :: tape_of (fun i => low (S i)) rest
  end.

(** All the sequences of [len] two-bit outcomes.  A generator whose words
    are uniform and independent makes them equally likely. *)
Fixpoint two_bit_seqs (len : nat) : list (list Z) :=
  match len with
  | O => [[]]
  | S len' => flat_map (fun d => map (cons d) (two_bit_seqs len')) [0; 1; 2; 3]%Z
  end.

(** A choice among three is settled within the outcomes [ds] when one of
    them is below three. *)
Definition settled (ds : list Z) : bool := existsb (fun d => d <? 3)%Z ds.

(** The call answered with the edge [e]. *)
Definition server_is (e : string) (run : result (gmap string value) * World) : bool :=
  match fst run with
  | Ok resp =>
      match resp !! "server_id" with
      | Some (VStr s) => String.eqb s e
      | _ => false
      end
  | Raise _ => false
  end.

(** On a generator that puts out the two-bit outcomes [ds], the choice of
    the edge is settled within [ds] and a call without a hint answers with
    the edge [e]. *)
Definition selects (w : World) (low : nat -> Z) (e : string) (ds : list Z) : bool :=
  settled ds && server_is e (recommend None (with_random (tape_of low ds) w)).

(** The two outcomes of the handler. *)
Definition failure_outcome : gmap string value :=
  <["message" := VStr "Invalid payload"]> (<["status" := VStr "error"]> ∅).

Definition success_outcome : gmap string value :=
  <["status" := VStr "ok"]> ∅.

(** Exactly [k] digits of [n], most significant first. *)
Fixpoint fixed_digits (base : Z) (k : nat) (n : Z) : string :=
  match k with
  | O => ""
  | S k' => fixed_digits base k' (n / base)
            +:+ String (digit_char (n mod base)) ""
  end.

(** The value of a digit character. *)
Definition digit_val (c : ascii) : Z :=
  match index 0 (String c "") "0123456789abcdef" with
  | Some i => Z.of_nat i
  | None => (-1)%Z
  end.

(** [x] has no bit at or above position [k]. *)
Definition fits (k x : Z) : Prop := Z.land x (Z.ones k) = x.

(** The five groups of [str(uuid)], cut out of the 32 hexadecimal digits. *)
Definition dashed (hex : string) : string :=
  slice 0 8 hex +:+ "-" +:+ slice 8 12 hex +:+ "-" +:+ slice 12 16 hex +:+ "-"
  +:+ slice 16 20 hex +:+ "-" +:+ slice 20 (String.length hex) hex.

(** Texts are held as the UTF-8 bytes of their code points, a lone
    surrogate (which [json.loads] accepts) as the three bytes of its code
    point, [ED A0 80] to [ED BF BF]. *)
Fixpoint has_surrogate (s : string) : bool :=
  match s with
  | String a rest =>
      match rest with
      | String b _ =>
          (Nat.eqb (nat_of_ascii a) 237 && Nat.leb 160 (nat_of_ascii b))
          || has_surrogate rest
      | EmptyString => false
      end
  | EmptyString => false
  end.

(** A standard output that encodes to UTF-8 with the [strict] error handler:
    it encodes every text but those with a surrogate. *)
Definition utf8_strict (s : string) : bool := negb (has_surrogate s).


(** A world for examples.  The first word of the generator has the top bits
    [11], which a choice among three rejects, the second has [10]; the third
    has [111], which a choice among five rejects, the fourth has [011].  The
    entropy source yields the bytes 3, 10, 17, ..., the clock shows a leap
    day, and standard output is a strict UTF-8 stream. *)
Definition example_world : World :=
  mkWorld [3221225472; 2147483648; 3758096384; 1610612736]%Z 0
          (fun k => Z.of_nat (7 * k + 3)) 0
          (fun _ => mkDatetime 2024 2 29 13 5 9 120) 0 utf8_strict [].

(** A world whose entropy source repeats itself: every byte is 7. *)
Definition stuck_entropy_world : World :=
  mkWorld [] 0 (fun _ => 7%Z) 0
          (fun k => mkDatetime 2024 2 29 13 5 (Z.of_nat k) 0) 0 utf8_strict [].

(** Printers for the examples, which print neither a float nor a quoted
    string. *)
Definition example_repr_float (f : spec_float) : string := "0.0".
Definition example_repr_str (s : string) : string := "'" +:+ s +:+ "'".

(** The lines a submission adds to a standard output that encodes what
    [encodes] accepts. *)
Definition rate_lines (repr_float : spec_float -> string)
    (repr_str : string -> string) (encodes : string -> bool)
    (payload : gmap string value) : list string :=
  if negb (truthy (dict_get payload "content_id"))
     || is_None (dict_get payload "rating")
  then []
  else if encodes (rate_line repr_float repr_str payload)
       then [rate_line repr_float repr_str payload]
       else [].

(** The days from 1970-01-01 to a date of the proleptic Gregorian calendar. *)
Definition days_from_civil (y m d : Z) : Z :=
  let y := if (m <=? 2)%Z then (y - 1)%Z else y in
  let era := (y / 400)%Z in
  let yoe := (y - era * 400)%Z in
  let doy := ((153 * (if (m <=? 2)%Z then m + 9 else m - 3) + 2) / 5 + d - 1)%Z in
  let doe := (yoe * 365 + yoe / 4 - yoe / 100 + doy)%Z in
  (era * 146097 + doe - 719468)%Z.

(** The instant that the fields of [d] denote in UTC, in microseconds since
    1970-01-01T00:00:00Z. *)
Definition utc_micros (d : datetime) : Z :=
  ((((days_from_civil (year d) (month d) (day d) * 24 + hour d) * 60
     + minute d) * 60 + second d) * 1000000 + microsecond d)%Z.

(** The fraction of a second, when the text has one. *)
Definition read_fraction_prefix (s : string) : option (Z * string) :=
  match s with
  | String c s' => if Ascii.eqb c "." then read_digits 6 0 s' else Some (0%Z, s)
  | EmptyString => Some (0%Z, s)
  end.

(** The UTC offset of a text, in minutes: zero after [Z], the offset after
    [+hh:mm] or [-hh:mm]; a text with no designator is in the local time of
    its reader, whose offset is [local]. *)
Definition read_designator (local : Z) (s : string) : option Z :=
  match s with
  | EmptyString => Some local
  | String c s' =>
      if Ascii.eqb c "Z" then
        match s' with EmptyString => Some 0%Z | _ => None end
      else if Ascii.eqb c "+" || Ascii.eqb c "-" then
        '(h, s) ← read_digits 2 0 s';
        s ← expect ":" s;
        '(m, s) ← read_digits 2 0 s;
        match s with
        | EmptyString =>
            Some (if Ascii.eqb c "-" then (- (h * 60 + m))%Z else (h * 60 + m)%Z)
        | _ => None
        end
      else None
  end.

(** The instant that an ISO-8601 text denotes for a reader whose local time
    is [local] minutes ahead of UTC, in microseconds since the epoch. *)
Definition read_instant (local : Z) (s : string) : option Z :=
  '(y, s) ← read_digits 4 0 s;
  s ← expect "-" s;
  '(mo, s) ← read_digits 2 0 s;
  s ← expect "-" s;
  '(d, s) ← read_digits 2 0 s;
  s ← expect "T" s;
  '(h, s) ← read_digits 2 0 s;
  s ← expect ":" s;
  '(mi, s) ← read_digits 2 0 s;
  s ← expect ":" s;
  '(se, s) ← read_digits 2 0 s;
  '(us, s) ← read_fraction_prefix s;
  off ← read_designator local s;
  let dt := mkDatetime y mo d h mi se us in
  if valid_datetime dt then Some (utc_micros dt - off * 60000000)%Z else None.

(** The value [init_state] gives a key that is not set. *)
Definition initial_value (key : string) : option value :=
  if String.eqb key "current_rec" then Some VNone
  else if String.eqb key "last_latency_ms" then Some VNone
  else if String.eqb key "logs" then Some (VList [])
  else None.

(** The request [fetch_recommendation] sends: the hint travels as the query
    parameter [server_hint] unless it is [None] or empty. *)
Definition recommend_request (server_hint : option string) : request :=
  GET (BACKEND_BASE_URL +:+ "/recommend")
      (match server_hint with
       | Some s => if String.eqb s "" then ∅ else <["server_hint" := VStr s]> ∅
       | None => ∅
       end).

(** The request [send_rating] sends. *)
Definition rate_request (content_id : value) (rating : Z) : request :=
  POST (BACKEND_BASE_URL +:+ "/rate")
       (<["rating" := VInt rating]> (<["content_id" := content_id]> ∅)).

Definition error_call (msg : string) : ui_call := mkCall "error" [VStr msg].

(** The hint the page derives from the select box. *)
Definition hint_of (server_hint : string) : option string :=
  if String.eqb server_hint "auto" then None else Some server_hint.

(** The field of a JSON object, [None] when the object lacks it. *)
Definition field (items : list (string * value)) (k : string) : value :=
  match items_get items k with Some x => x | None => VNone end.

(** The event the page logs for a recommendation. *)
Definition recommend_event (ts : string) (items : list (string * value))
    (latency_ms : value) : value :=
  VDict [("time", VStr ts); ("event", VStr "recommend");
         ("content_id", field items "content_id"); ("title", field items "title");
         ("server_id", field items "server_id");
         ("server_region", field items "server_region");
         ("latency_ms", latency_ms); ("rating", VNone); ("success", VBool true)].

(** The event the page logs for a click on a rating button. *)
Definition rate_event (ts : string) (items : list (string * value))
    (latency_ms : value) (rating : Z) (ok : bool) : value :=
  VDict [("time", VStr ts); ("event", VStr "rate");
         ("content_id", field items "content_id"); ("title", field items "title");
         ("server_id", field items "server_id");
         ("server_region", field items "server_region");
         ("latency_ms", latency_ms); ("rating", VInt rating);
         ("success", VBool ok)].

(** A request that passes the checks of the backend: a recommendation
    request with no hint or with a known edge as the hint, or a rating
    submission that passes the validation of [rate], which then answers with
    the success outcome when standard output can encode the log line, and
    raises, leaving the world as it was, when it cannot. *)
Definition backend_accepts (repr_float : spec_float -> string)
    (repr_str : string -> string) (req : request) : Prop :=
  match req with
  | GET url params =>
      url = BACKEND_BASE_URL +:+ "/recommend" /\
      (params = ∅ \/
       exists h, In h REGIONS /\ params = <["server_hint" := VStr h]> ∅)
  | POST url payload =>
      url = BACKEND_BASE_URL +:+ "/rate" /\
      forall w,
        rate repr_float repr_str payload w
        = if stdout_encodes w (rate_line repr_float repr_str payload)
          then (Ok success_outcome,
                write_stdout (rate_line repr_float repr_str payload) w)
          else (Raise UnicodeEncodeError, w)
  end.

(** [c] relates every browser to the one it leaves, crashed or not. *)
Definition steps (R : Browser -> Browser -> Prop) {A} (c : UI A) : Prop :=
  forall b, R b (snd (c b)).

(** * Properties *)

(** ** Running the primitives *)

Lemma Ok_inj {A} (a b : A) : @Ok A a = Ok b -> a = b.
Proof. intros H. injection H as H. exact H. Qed.

Lemma bind_ok {A B} (c : Py A) (k : A -> Py B) w a w' :
  c w = (Ok a, w') -> bind c k w = k a w'.
Proof. intros H. unfold bind. rewrite H. reflexivity. Qed.

(** *** The generator *)

Lemma nth_hd_skipn (l : list Z) (i : nat) : nth i l 0%Z = hd 0%Z (skipn i l).
Proof.
  revert l. induction i as [| i IH]; intros [| x l]; try reflexivity. apply IH.
Qed.

Lemma skipn_succ_tl (l : list Z) (i : nat) : skipn (i + 1) l = tl (skipn i l).
Proof.
  revert l. induction i as [| i IH]; intros [| x l]; try reflexivity. apply IH.
Qed.

Lemma remaining_tick (w : World) : remaining (tick_random w) = tl (remaining w).
Proof. unfold remaining. simpl. apply skipn_succ_tl. Qed.

Lemma skip_random_tick (c : nat) (w : World) :
  skip_random c (tick_random w) = skip_random (S c) w.
Proof. unfold tick_random, skip_random. simpl. f_equal. lia. Qed.

Lemma genrand_uint32_run (w : World) :
  genrand_uint32 w = (Ok (hd 0 (remaining w) mod 2 ^ 32)%Z, tick_random w).
Proof. unfold genrand_uint32, remaining. rewrite nth_hd_skipn. reflexivity. Qed.

(** Up to 32 bits are the top bits of the next word. *)
Lemma getrandbits_small (k : Z) (w : World) :
  (0 < k <= 32)%Z ->
  getrandbits k w = (Ok (top_bits k (hd 0%Z (remaining w))), tick_random w).
Proof.
  intros Hk. unfold getrandbits.
  destruct (Z.eqb_spec k 0) as [-> | _]; [lia |].
  destruct (Z.leb_spec k 32) as [_ | Hgt]; [| lia].
  rewrite (bind_ok _ _ _ _ _ (genrand_uint32_run w)). reflexivity.
Qed.

Lemma top_bits_0 (k : Z) : top_bits k 0 = 0%Z.
Proof. unfold top_bits. rewrite Z.mod_0_l by lia. apply Z.shiftr_0_l. Qed.

Lemma top_bits_nonneg (k x : Z) : (0 <= top_bits k x)%Z.
Proof.
  unfold top_bits. apply Z.shiftr_nonneg. apply Z.mod_pos_bound. lia.
Qed.

Lemma first_below_range (n k : Z) (ws : list Z) :
  (0 < n)%Z -> (0 <= fst (first_below n k ws) < n)%Z.
Proof.
  intros Hn. induction ws as [| x rest IH]; simpl; [lia |].
  destruct (Z.ltb_spec (top_bits k x) n) as [Hlt | Hge]; simpl; [| exact IH].
  pose proof (top_bits_nonneg k x). lia.
Qed.

Lemma first_below_words (n k : Z) (ws : list Z) :
  1 <= snd (first_below n k ws) <= S (length ws).
Proof.
  induction ws as [| x rest IH]; simpl; [lia |].
  destruct (top_bits k x <? n)%Z; simpl; lia.
Qed.

(** The loop of [randbelow] stops at the first outcome below [n], and the
    rounds it is allowed are enough. *)
Lemma randbelow_loop_run (n k : Z) :
  (0 < n)%Z -> (0 < k <= 32)%Z ->
  forall (l : list Z) (w : World) (fuel : nat) (r : Z),
    remaining w = l -> length l < fuel ->
    randbelow_loop fuel n k r w
    = if (r <? n)%Z then (Ok r, w)
      else (Ok (fst (first_below n k l)), skip_random (snd (first_below n k l)) w).
Proof.
  intros Hn Hk. induction l as [| x rest IH]; intros w fuel r Hrem Hfuel;
    (destruct fuel as [| fuel]; [simpl in Hfuel; lia |]);
    simpl randbelow_loop; destruct (r <? n)%Z eqn:Hr; try reflexivity;
    rewrite (bind_ok _ _ _ _ _ (getrandbits_small k w Hk)), Hrem;
    cbn [hd first_below].
  - rewrite top_bits_0.
    destruct fuel; simpl; (destruct (Z.ltb_spec 0 n); [reflexivity | lia]).
  - rewrite (IH (tick_random w) fuel (top_bits k x)).
    + destruct (top_bits k x <? n)%Z; cbn [fst snd]; [reflexivity |].
      rewrite skip_random_tick. reflexivity.
    + rewrite remaining_tick, Hrem. reflexivity.
    + simpl in Hfuel. lia.
Qed.

(** [randbelow] for a bound of at most 32 bits: rejection sampling over the
    words left on the tape. *)
Lemma randbelow_small (n : Z) (w : World) :
  (0 < n)%Z -> (bit_length n <= 32)%Z ->
  randbelow n w
  = (Ok (fst (first_below n (bit_length n) (remaining w))),
     skip_random (snd (first_below n (bit_length n) (remaining w))) w).
Proof.
  intros Hn Hk32.
  assert (Hk : (0 < bit_length n <= 32)%Z).
  { split; [| exact Hk32]. unfold bit_length.
    destruct (Z.eqb_spec n 0); [lia |]. pose proof (Z.log2_nonneg (Z.abs n)). lia. }
  unfold randbelow.
  rewrite (bind_ok _ _ _ _ _ (getrandbits_small _ w Hk)).
  rewrite (randbelow_loop_run n _ Hn Hk (tl (remaining w)));
    [| apply remaining_tick |].
  - destruct (remaining w) as [| x rest]; cbn [hd tl first_below].
    + rewrite top_bits_0. destruct (Z.ltb_spec 0 n); [reflexivity | lia].
    + destruct (top_bits (bit_length n) x <? n)%Z; cbn [fst snd]; [reflexivity |].
      rewrite skip_random_tick. reflexivity.
  - unfold remaining. destruct (skipn (random_pos w) (random_tape w)) eqn:Hs;
      [simpl; lia |].
    apply (f_equal (@length Z)) in Hs. rewrite length_skipn in Hs.
    simpl in *. lia.
Qed.

(** *** Bounds of any size *)

Lemma skip_random_0 (w : World) : skip_random 0 w = w.
Proof. destruct w. unfold skip_random. simpl. f_equal. lia. Qed.

Lemma skip_random_skip (c d : nat) (w : World) :
  skip_random c (skip_random d w) = skip_random (d + c) w.
Proof. unfold skip_random. simpl. f_equal. lia. Qed.

Lemma remaining_skip_length (c : nat) (w : World) :
  length (remaining (skip_random c w)) = length (remaining w) - c.
Proof. unfold remaining. simpl. rewrite !length_skipn. lia. Qed.

Lemma getrandbits_words_run (words : nat) (k : Z) (w : World) :
  exists v,
    getrandbits_words words k w = (Ok v, skip_random words w) /\
    (0 <= v)%Z /\ (remaining w = [] -> v = 0%Z).
Proof.
  revert k w. induction words as [| words IH]; intros k w.
  - exists 0%Z. simpl. unfold ret. rewrite skip_random_0.
    split; [reflexivity |]. split; [lia | reflexivity].
  - destruct (IH (k - 32)%Z (tick_random w)) as (rest & Hrest & Hpos & Hzero).
    simpl getrandbits_words.
    rewrite (bind_ok _ _ _ _ _ (genrand_uint32_run w)).
    rewrite (bind_ok _ _ _ _ _ Hrest).
    eexists. split; [unfold ret; rewrite skip_random_tick; reflexivity |].
    assert (Hx : (0 <= hd 0 (remaining w) mod 2 ^ 32)%Z)
      by (apply Z.mod_pos_bound; lia).
    split.
    + apply Z.lor_nonneg. split; [| apply Z.shiftl_nonneg; exact Hpos].
      destruct (k <? 32)%Z; [apply Z.shiftr_nonneg |]; exact Hx.
    + intros Hnil. rewrite Hzero by (rewrite remaining_tick, Hnil; reflexivity).
      rewrite Hnil. cbn [hd]. rewrite Z.mod_0_l by lia.
      destruct (k <? 32)%Z; rewrite ?Z.shiftr_0_l; reflexivity.
Qed.

(** A draw of [k > 0] bits reads at least one word, gives a number that is
    not negative, and gives zero past the end of the tape. *)
Lemma getrandbits_run (k : Z) (w : World) :
  (0 < k)%Z ->
  exists v c,
    getrandbits k w = (Ok v, skip_random c w) /\
    1 <= c /\ (0 <= v)%Z /\ (remaining w = [] -> v = 0%Z).
Proof.
  intros Hk. destruct (Z.leb_spec k 32) as [Hle | Hgt].
  - exists (top_bits k (hd 0%Z (remaining w))), 1.
    split; [apply getrandbits_small; lia |]. split; [lia |].
    split; [apply top_bits_nonneg |].
    intros ->. apply top_bits_0.
  - unfold getrandbits.
    destruct (Z.eqb_spec k 0) as [-> | _]; [lia |].
    destruct (Z.leb_spec k 32) as [Hle | _]; [lia |].
    destruct (getrandbits_words_run (Z.to_nat ((k - 1) / 32 + 1)) k w)
      as (v & Hrun & Hpos & Hzero).
    exists v, (Z.to_nat ((k - 1) / 32 + 1)). split; [exact Hrun |].
    split; [| split; assumption].
    assert (0 <= (k - 1) / 32)%Z by (apply Z.div_pos; lia). lia.
Qed.

Lemma randbelow_loop_total (n k : Z) :
  (0 < n)%Z -> (0 < k)%Z ->
  forall (fuel : nat) (w : World) (r : Z),
    length (remaining w) < fuel -> (0 <= r)%Z ->
    exists r' c,
      randbelow_loop fuel n k r w = (Ok r', skip_random c w) /\ (0 <= r' < n)%Z.
Proof.
  intros Hn Hk. induction fuel as [| fuel IH]; intros w r Hfuel Hr; [lia |].
  simpl randbelow_loop. destruct (Z.ltb_spec r n) as [Hlt | Hge].
  - exists r, 0. unfold ret. rewrite skip_random_0. split; [reflexivity | lia].
  - destruct (getrandbits_run k w Hk) as (v & c & Hdraw & Hc & Hv & Hzero).
    rewrite (bind_ok _ _ _ _ _ Hdraw).
    destruct (remaining w) as [| x rest] eqn:Hrem.
    + rewrite (Hzero eq_refl). exists 0%Z, c. split; [| lia].
      destruct fuel; simpl; (destruct (Z.ltb_spec 0 n); [reflexivity | lia]).
    + destruct (IH (skip_random c w) v) as (r' & c' & Hloop & Hr'); [| exact Hv |].
      * rewrite remaining_skip_length, Hrem. simpl in *. lia.
      * exists r', (c + c'). rewrite Hloop, skip_random_skip.
        split; [reflexivity | exact Hr'].
Qed.

(** [randbelow] returns, for every bound above zero and on every world, a
    number below the bound: the rounds allowed are enough. *)
Lemma randbelow_total (n : Z) (w : World) :
  (0 < n)%Z ->
  exists r c, randbelow n w = (Ok r, skip_random c w) /\ (0 <= r < n)%Z.
Proof.
  intros Hn.
  assert (Hk : (0 < bit_length n)%Z).
  { unfold bit_length. destruct (Z.eqb_spec n 0); [lia |].
    pose proof (Z.log2_nonneg (Z.abs n)). lia. }
  unfold randbelow.
  destruct (getrandbits_run _ w Hk) as (v & c & Hdraw & Hc & Hv & _).
  rewrite (bind_ok _ _ _ _ _ Hdraw).
  destruct (randbelow_loop_total n _ Hn Hk
              (S (length (random_tape w) - random_pos w)) (skip_random c w) v)
    as (r & c' & Hloop & Hr); [| exact Hv |].
  - rewrite remaining_skip_length. unfold remaining. rewrite length_skipn. lia.
  - exists r, (c + c'). rewrite Hloop, skip_random_skip.
    split; [reflexivity | exact Hr].
Qed.

(** [random.choice] returns a member of any non-empty sequence. *)
Lemma choice_total {A} (seq : list A) (w : World) :
  seq <> [] ->
  exists x c, choice seq w = (Ok x, skip_random c w) /\ In x seq.
Proof.
  intros Hne.
  assert (Hlen : (0 < Z.of_nat (length seq))%Z) by (destruct seq; simpl; [congruence | lia]).
  destruct (randbelow_total _ w Hlen) as (r & c & Hrun & Hr).
  assert (Hlt : Z.to_nat r < length seq) by lia.
  destruct (lookup_lt_is_Some_2 seq _ Hlt) as [x Hx].
  exists x, c. split.
  - destruct seq as [| a seq']; [congruence |].
    unfold choice. rewrite (bind_ok _ _ _ _ _ Hrun), Hx. reflexivity.
  - apply list_elem_of_In. eapply list_elem_of_lookup_2. exact Hx.
Qed.

(** On a non-empty sequence of fewer than [2 ^ 32] items [random.choice]
    returns the element at the index drawn. *)
Lemma choice_run {A} (seq : list A) w :
  seq <> [] -> (bit_length (Z.of_nat (length seq)) <= 32)%Z ->
  exists x, seq !! drawn (length seq) w = Some x /\
            choice seq w = (Ok x, after_choice (length seq) w).
Proof.
  intros Hne Hk.
  assert (Hlen : (0 < Z.of_nat (length seq))%Z) by (destruct seq; simpl; [congruence | lia]).
  pose proof (first_below_range _ (bit_length (Z.of_nat (length seq))) (remaining w) Hlen)
    as Hrange.
  assert (Hlt : drawn (length seq) w < length seq) by (unfold drawn; lia).
  destruct (lookup_lt_is_Some_2 seq _ Hlt) as [x Hx].
  exists x. split; [exact Hx |].
  destruct seq as [| a seq']; [congruence |].
  unfold choice. rewrite (bind_ok _ _ _ _ _ (randbelow_small _ w Hlen Hk)).
  fold (drawn (length (a :: seq')) w). rewrite Hx. reflexivity.
Qed.

Lemma content_item_title t b : content_item t b !! "title" = Some (VStr t).
Proof. unfold content_item. rewrite lookup_insert_ne by discriminate. apply lookup_insert_eq. Qed.

Lemma content_item_body t b : content_item t b !! "body" = Some (VStr b).
Proof. unfold content_item. apply lookup_insert_eq. Qed.

Lemma VIDEOS_shape v : In v VIDEOS -> exists t b, v = content_item t b.
Proof. simpl. intros H. repeat destruct H as [H | H]; subst; eauto. contradiction. Qed.

Lemma getitem_run d k v w : d !! k = Some v -> getitem d k w = (Ok v, w).
Proof. intros H. unfold getitem. rewrite H. reflexivity. Qed.

Lemma uuid4_run w : uuid4 w = (Ok (uuid_at w 0), skip_urandom 16 w).
Proof.
  unfold uuid4, bind, urandom, ret, uuid_at.
  rewrite Nat.mul_0_r, Nat.add_0_r. reflexivity.
Qed.

(** [recommend] always returns: it resolves the edge, picks one catalog entry,
    draws one UUID and reads the clock once. *)
Lemma recommend_run hint w :
  exists server t b,
    match hint with
    | Some h => server = h
    | None => REGIONS !! drawn (length REGIONS) w = Some server
    end /\
    VIDEOS !! drawn (length VIDEOS) (after_resolve hint w) = Some (content_item t b) /\
    recommend hint w =
      (Ok (response (UUID_str (uuid_at w 0)) t b server
                    (isoformat (clock_tape w (clock_pos w)))),
       tick_clock (skip_urandom 16 (after_choice (length VIDEOS) (after_resolve hint w)))).
Proof.
  set (w1 := after_resolve hint w).
  assert (Hres : exists server,
             match hint with
             | Some h => server = h
             | None => REGIONS !! drawn (length REGIONS) w = Some server
             end /\
             match hint with
             | None => choice REGIONS
             | Some h => ret h
             end w = (Ok server, w1)).
  { destruct hint as [h |].
    - exists h. split; reflexivity.
    - destruct (choice_run REGIONS w) as [e [He Hc]];
        [discriminate | vm_compute; discriminate |].
      exists e. split; assumption. }
  destruct Hres as [server [Hserver Hrun]].
  destruct (choice_run VIDEOS w1) as [v [Hv Hc]];
    [discriminate | vm_compute; discriminate |].
  destruct (VIDEOS_shape v) as [t [b ->]].
  { apply list_elem_of_In. eapply list_elem_of_lookup_2. exact Hv. }
  exists server, t, b. split; [exact Hserver |]. split; [exact Hv |].
  set (w2 := after_choice (length VIDEOS) w1) in *.
  assert (Hu : uuid4 w2 = (Ok (uuid_at w 0), skip_urandom 16 w2)).
  { rewrite uuid4_run. f_equal. f_equal. unfold uuid_at, w2, w1.
    destruct hint; reflexivity. }
  assert (Hn : utcnow (skip_urandom 16 w2)
               = (Ok (clock_tape w (clock_pos w)), tick_clock (skip_urandom 16 w2))).
  { unfold utcnow, w2, w1. destruct hint; reflexivity. }
  unfold recommend.
  rewrite (bind_ok _ _ _ _ _ Hrun), (bind_ok _ _ _ _ _ Hc), (bind_ok _ _ _ _ _ Hu).
  rewrite (bind_ok _ _ _ _ _ (getitem_run _ _ _ _ (content_item_title t b))).
  rewrite (bind_ok _ _ _ _ _ (getitem_run _ _ _ _ (content_item_body t b))).
  rewrite (bind_ok _ _ _ _ _ Hn).
  reflexivity.
Qed.

(** ** The fields of a response *)

Lemma response_content_id cid t b srv ts :
  response cid t b srv ts !! "content_id" = Some (VStr cid).
Proof. unfold response. by simplify_map_eq. Qed.

Lemma response_title cid t b srv ts :
  response cid t b srv ts !! "title" = Some (VStr t).
Proof. unfold response. by simplify_map_eq. Qed.

Lemma response_body cid t b srv ts :
  response cid t b srv ts !! "body" = Some (VStr b).
Proof. unfold response. by simplify_map_eq. Qed.

Lemma response_server_id cid t b srv ts :
  response cid t b srv ts !! "server_id" = Some (VStr srv).
Proof. unfold response. by simplify_map_eq. Qed.

Lemma response_server_region cid t b srv ts :
  response cid t b srv ts !! "server_region" = Some (VStr srv).
Proof. unfold response. by simplify_map_eq. Qed.

Lemma response_timestamp cid t b srv ts :
  response cid t b srv ts !! "timestamp" = Some (VStr ts).
Proof. unfold response. by simplify_map_eq. Qed.

Lemma response_dom cid t b srv ts :
  dom (response cid t b srv ts)
  = ({["content_id"; "title"; "body"; "server_id"; "server_region"; "timestamp"]}
       : gset string).
Proof. unfold response. rewrite !dom_insert_L, dom_empty_L. set_solver. Qed.

Lemma response_text cid t b srv ts k v :
  response cid t b srv ts !! k = Some v -> exists s, v = VStr s.
Proof.
  unfold response. intros H.
  repeat (apply lookup_insert_Some in H; destruct H as [[_ <-] | [_ H]]; [eauto |]).
  rewrite lookup_empty in H. discriminate.
Qed.

(** ** Edge resolution *)

(** C1: a present, non-empty hint is the resolved edge as it stands, whether
    or not it names a known edge: the call returns a response whose
    [server_id] and [server_region] are both the hint. *)
Theorem recommend_hint_verbatim (H : string) (w : World) :
  H <> "" ->
  exists resp w',
    recommend (Some H) w = (Ok resp, w') /\
    resp !! "server_id" = Some (VStr H) /\
    resp !! "server_region" = Some (VStr H).
Proof.
  intros _.
  destruct (recommend_run (Some H) w) as (srv & t & b & -> & _ & Hrun).
  eexists _, _. split; [exact Hrun |].
  split; [apply response_server_id | apply response_server_region].
Qed.

Lemma recommend_hint_verbatim_witness :
  ~ In "edge-mars-9" REGIONS /\
  exists resp w',
    recommend (Some "edge-mars-9") example_world = (Ok resp, w') /\
    resp !! "server_id" = Some (VStr "edge-mars-9") /\
    resp !! "server_region" = Some (VStr "edge-mars-9").
Proof.
  split.
  - simpl. intros [H | [H | [H | []]]]; discriminate.
  - apply (recommend_hint_verbatim "edge-mars-9" example_world). discriminate.
Defined.

(** C9: a hint that is present but empty is used as it stands too: the edge
    is the empty string, and the call draws on the random generator for the
    catalog entry only: it leaves the generator where one choice among the
    catalog, made on the world the call started in, leaves it. *)
Theorem recommend_empty_hint_verbatim (w : World) :
  exists resp w',
    recommend (Some "") w = (Ok resp, w') /\
    resp !! "server_id" = Some (VStr "") /\
    resp !! "server_region" = Some (VStr "") /\
    random_pos w' = random_pos (snd (choice VIDEOS w)).
Proof.
  destruct (recommend_run (Some "") w) as (srv & t & b & -> & _ & Hrun).
  eexists _, _. split; [exact Hrun |].
  split; [apply response_server_id |].
  split; [apply response_server_region |].
  destruct (choice_run VIDEOS w) as [v [_ Hc]];
    [discriminate | vm_compute; discriminate |].
  rewrite Hc. reflexivity.
Qed.

(** *** The distribution of the edge *)

Lemma top_bits_word_of (d low : Z) :
  (0 <= d < 4)%Z -> top_bits 2 (word_of d low) = d.
Proof.
  intros Hd. unfold top_bits, word_of. change (32 - 2)%Z with 30%Z.
  apply Z.bits_inj'. intros i Hi. rewrite Z.shiftr_spec by lia.
  destruct (Z.ltb_spec (i + 30) 32) as [Hlow | Hhigh].
  - rewrite Z.mod_pow2_bits_low by lia.
    rewrite Z.lor_spec, Z.shiftl_spec, Z.land_spec by lia.
    rewrite (Z.ones_spec_high 30 (i + 30)) by lia.
    replace (i + 30 - 30)%Z with i by lia.
    rewrite andb_false_r, orb_false_r. reflexivity.
  - rewrite Z.mod_pow2_bits_high by lia. symmetry.
    destruct (Z.eq_dec d 0%Z) as [-> | Hnz]; [apply Z.bits_0 |].
    apply Z.bits_above_log2; [lia |].
    apply Z.lt_le_trans with 2%Z; [| lia].
    apply Z.log2_lt_pow2; lia.
Qed.

Lemma drawn_with_random (ws : list Z) (w : World) :
  drawn (length REGIONS) (with_random ws w) = Z.to_nat (fst (first_below 3 2 ws)).
Proof. reflexivity. Qed.

(** Whether the call answers with [e] is read off the index drawn. *)
Lemma server_is_drawn (e : string) (w : World) :
  server_is e (recommend None w)
  = match REGIONS !! drawn (length REGIONS) w with
    | Some s => String.eqb s e
    | None => false
    end.
Proof.
  destruct (recommend_run None w) as (srv & t & b & Hsrv & _ & Hrun).
  unfold server_is. rewrite Hrun, Hsrv. cbn [fst].
  rewrite response_server_id. reflexivity.
Qed.

Lemma selects_accepted (w : World) (low : nat -> Z) (e : string) (d : Z) (ds : list Z) :
  (0 <= d < 3)%Z ->
  selects w low e (d :: ds)
  = match REGIONS !! Z.to_nat d with Some s => String.eqb s e | None => false end.
Proof.
  intros Hd. unfold selects, settled.
  rewrite server_is_drawn, drawn_with_random. cbn [existsb tape_of first_below].
  rewrite top_bits_word_of by lia.
  destruct (Z.ltb_spec d 3); [reflexivity | lia].
Qed.

Lemma selects_rejected (w : World) (low : nat -> Z) (e : string) (ds : list Z) :
  selects w low e (3%Z :: ds) = selects w (fun i => low (S i)) e ds.
Proof.
  unfold selects, settled.
  rewrite !server_is_drawn, !drawn_with_random. cbn [existsb tape_of first_below].
  rewrite top_bits_word_of by lia. reflexivity.
Qed.

Lemma filter_map_cons_length (p : list Z -> bool) (d : Z) (l : list (list Z)) :
  length (List.filter p (map (cons d) l))
  = length (List.filter (fun ds => p (d :: ds)) l).
Proof.
  induction l as [| x l IH]; [reflexivity |].
  cbn [map List.filter]. destruct (p (d :: x)); simpl; rewrite IH; reflexivity.
Qed.

Lemma filter_const_length {A} (c : bool) (l : list A) :
  length (List.filter (fun _ => c) l) = if c then length l else 0.
Proof.
  induction l as [| x l IH]; [destruct c; reflexivity |].
  destruct c; simpl in *; rewrite IH; reflexivity.
Qed.

(** The sequences of [S len] outcomes, by their first outcome. *)
Lemma filter_two_bit_seqs_succ (p : list Z -> bool) (len : nat) :
  length (List.filter p (two_bit_seqs (S len)))
  = length (List.filter (fun ds => p (0%Z :: ds)) (two_bit_seqs len))
    + length (List.filter (fun ds => p (1%Z :: ds)) (two_bit_seqs len))
    + length (List.filter (fun ds => p (2%Z :: ds)) (two_bit_seqs len))
    + length (List.filter (fun ds => p (3%Z :: ds)) (two_bit_seqs len)).
Proof.
  cbn [two_bit_seqs flat_map]. rewrite app_nil_r.
  rewrite !List.filter_app, !length_app, !filter_map_cons_length. lia.
Qed.

Lemma two_bit_seqs_length (len : nat) : length (two_bit_seqs len) = 4 ^ len.
Proof.
  induction len as [| len IH]; [reflexivity |].
  cbn [two_bit_seqs flat_map]. rewrite app_nil_r, !length_app, !length_map, IH.
  rewrite Nat.pow_succ_r'. lia.
Qed.

Lemma unsettled_count (len : nat) :
  length (List.filter (fun ds => negb (settled ds)) (two_bit_seqs len)) = 1.
Proof.
  induction len as [| len IH]; [reflexivity |].
  rewrite filter_two_bit_seqs_succ.
  change (fun ds => negb (settled (0%Z :: ds))) with (fun _ : list Z => false).
  change (fun ds => negb (settled (1%Z :: ds))) with (fun _ : list Z => false).
  change (fun ds => negb (settled (2%Z :: ds))) with (fun _ : list Z => false).
  change (fun ds => negb (settled (3%Z :: ds))) with (fun ds => negb (settled ds)).
  rewrite !filter_const_length, IH. reflexivity.
Qed.

(** Of the [4 ^ len] sequences of outcomes, one leaves the choice unsettled
    and the others fall to the three known edges in equal numbers. *)
Lemma selects_count (w : World) (e : string) (len : nat) :
  In e REGIONS ->
  forall low, 3 * length (List.filter (selects w low e) (two_bit_seqs len)) + 1 = 4 ^ len.
Proof.
  intros He. induction len as [| len IH]; intros low.
  - reflexivity.
  - rewrite filter_two_bit_seqs_succ.
    rewrite (List.filter_ext _ _ (fun ds => selects_accepted w low e 0 ds ltac:(lia))).
    rewrite (List.filter_ext _ _ (fun ds => selects_accepted w low e 1 ds ltac:(lia))).
    rewrite (List.filter_ext _ _ (fun ds => selects_accepted w low e 2 ds ltac:(lia))).
    rewrite (List.filter_ext _ _ (selects_rejected w low e)).
    rewrite !filter_const_length, two_bit_seqs_length.
    specialize (IH (fun i => low (S i))).
    rewrite Nat.pow_succ_r'.
    cbn [In REGIONS] in He.
    destruct He as [<- | [<- | [<- | []]]]; vm_compute lookup; cbn [String.eqb];
      simpl; lia.
Qed.

(** C5: without a hint the edge is the known edge at the index that
    [random.choice] draws by rejection sampling: the first two-bit outcome of
    the generator below [len(REGIONS)].  So the edge is a member of the fixed,
    non-empty, duplicate-free set of known edges; the call moves the
    generator past the words it drew; and the edge is uniform when the
    generator is: of the [4 ^ len] sequences of [len] two-bit outcomes,
    whatever the other bits of the words, one leaves the choice unsettled and
    each known edge is selected by a third of the others. *)
Theorem recommend_no_hint_uniform_edge (w : World) :
  REGIONS <> [] /\ NoDup REGIONS /\
  (exists resp w' e,
     recommend None w = (Ok resp, w') /\
     REGIONS !! drawn (length REGIONS) w = Some e /\
     In e REGIONS /\
     resp !! "server_id" = Some (VStr e) /\
     resp !! "server_region" = Some (VStr e) /\
     random_tape w' = random_tape w /\
     random_pos w' = random_pos w + words_drawn (length REGIONS) w
                     + words_drawn (length VIDEOS) (after_choice (length REGIONS) w) /\
     1 <= words_drawn (length REGIONS) w) /\
  (forall (low : nat -> Z) (len : nat),
     length (two_bit_seqs len) = 4 ^ len /\
     length (List.filter (fun ds => negb (settled ds)) (two_bit_seqs len)) = 1 /\
     forall e, In e REGIONS ->
       3 * length (List.filter (selects w low e) (two_bit_seqs len)) + 1 = 4 ^ len).
Proof.
  assert (Hnd : NoDup REGIONS).
  { apply (bool_decide_unpack _). vm_compute. reflexivity. }
  split; [discriminate |]. split; [exact Hnd |]. split.
  - destruct (recommend_run None w) as (e & t & b & He & _ & Hrun).
    eexists _, _, e. split; [exact Hrun |]. split; [exact He |].
    split; [apply list_elem_of_In; eapply list_elem_of_lookup_2; exact He |].
    split; [apply response_server_id |].
    split; [apply response_server_region |].
    split; [reflexivity |]. split.
    + cbn [random_pos tick_clock skip_urandom after_choice after_resolve skip_random].
      lia.
    + apply first_below_words.
  - intros low len. split; [apply two_bit_seqs_length |].
    split; [apply unsettled_count |].
    intros e He. apply selects_count. exact He.
Qed.

(** ** The content of a response *)

(** C8: the title and the body of a response are those of one and the same
    entry of the catalog. *)
Theorem recommend_from_catalog (hint : option string) (w : World) :
  exists resp w' v,
    recommend hint w = (Ok resp, w') /\
    In v VIDEOS /\
    is_Some (v !! "title") /\ resp !! "title" = v !! "title" /\
    is_Some (v !! "body") /\ resp !! "body" = v !! "body".
Proof.
  destruct (recommend_run hint w) as (srv & t & b & _ & Hv & Hrun).
  eexists _, _, (content_item t b). split; [exact Hrun |].
  split; [apply list_elem_of_In; eapply list_elem_of_lookup_2; exact Hv |].
  rewrite content_item_title, content_item_body, response_title, response_body. eauto.
Qed.

(** C3: every call returns a dictionary with exactly the six keys
    [content_id], [title], [body], [server_id], [server_region] and
    [timestamp], each bound to a string, and [server_region] is bound to the
    same string as [server_id]. *)
Theorem recommend_response_shape (hint : option string) (w : World) :
  exists resp w',
    recommend hint w = (Ok resp, w') /\
    dom resp = ({["content_id"; "title"; "body"; "server_id"; "server_region";
                  "timestamp"]} : gset string) /\
    size resp = 6 /\
    (forall k v, resp !! k = Some v -> exists s, v = VStr s) /\
    (exists s, resp !! "server_id" = Some (VStr s) /\
               resp !! "server_region" = Some (VStr s)).
Proof.
  destruct (recommend_run hint w) as (srv & t & b & _ & _ & Hrun).
  eexists _, _. split; [exact Hrun |].
  split; [apply response_dom |]. split.
  { rewrite <- size_dom, response_dom. reflexivity. }
  split; [apply response_text |].
  exists srv. split; [apply response_server_id | apply response_server_region].
Qed.

(** ** Strings *)

Lemma string_app_cons (c : ascii) (a b : string) :
  String c a +:+ b = String c (a +:+ b).
Proof. reflexivity. Qed.

Lemma string_app_nil_l (s : string) : "" +:+ s = s.
Proof. reflexivity. Qed.

Lemma string_app_nil_r (s : string) : s +:+ "" = s.
Proof.
  induction s as [| c s IH]; [reflexivity |].
  rewrite string_app_cons, IH. reflexivity.
Qed.

Lemma string_app_assoc (a b c : string) : (a +:+ b) +:+ c = a +:+ (b +:+ c).
Proof.
  induction a as [| x a IH]; [reflexivity |].
  rewrite !string_app_cons, IH. reflexivity.
Qed.

Lemma string_length_app (a b : string) :
  String.length (a +:+ b) = String.length a + String.length b.
Proof.
  induction a as [| x a IH]; [reflexivity |].
  rewrite string_app_cons. simpl. rewrite IH. reflexivity.
Qed.

(** Two concatenations with left parts of the same length agree part by part. *)
Lemma string_app_inj (a a' b b' : string) :
  String.length a = String.length a' ->
  a +:+ b = a' +:+ b' -> a = a' /\ b = b'.
Proof.
  revert a'. induction a as [| x a IH]; intros [| x' a'] Hlen Heq;
    try discriminate.
  - split; [reflexivity | exact Heq].
  - rewrite !string_app_cons in Heq. injection Heq as -> Heq.
    injection Hlen as Hlen.
    destruct (IH a' Hlen Heq) as [-> ->]. split; reflexivity.
Qed.

Lemma string_app_snoc_inj (a a' : string) (x x' : ascii) :
  a +:+ String x "" = a' +:+ String x' "" -> a = a' /\ x = x'.
Proof.
  intros Heq.
  assert (Hlen : String.length a = String.length a').
  { apply (f_equal String.length) in Heq. rewrite !string_length_app in Heq.
    simpl in Heq. lia. }
  destruct (string_app_inj _ _ _ _ Hlen Heq) as [-> Hx].
  injection Hx as ->. split; reflexivity.
Qed.

Lemma substring_0_all (s : string) : substring 0 (String.length s) s = s.
Proof. induction s as [| c s IH]; simpl; [reflexivity | by rewrite IH]. Qed.

Lemma substring_length (s : string) (i n : nat) :
  i + n <= String.length s -> String.length (substring i n s) = n.
Proof.
  revert i n. induction s as [| c s IH]; intros i n H; simpl in *.
  - assert (i = 0) as -> by lia. assert (n = 0) as -> by lia. reflexivity.
  - destruct i as [| i].
    + destruct n as [| n]; [reflexivity |]. simpl. rewrite IH by lia. reflexivity.
    + apply IH. lia.
Qed.

(** Adjacent slices concatenate to the slice that spans both. *)
Lemma substring_split (s : string) (i n m : nat) :
  i + n + m <= String.length s ->
  substring i n s +:+ substring (i + n) m s = substring i (n + m) s.
Proof.
  revert i n m. induction s as [| c s IH]; intros i n m H; simpl in *.
  - assert (i = 0) as -> by lia. assert (n = 0) as -> by lia.
    assert (m = 0) as -> by lia. reflexivity.
  - destruct i as [| i].
    + destruct n as [| n]; simpl; [reflexivity |].
      pose proof (IH 0 n m) as IH0. simpl in IH0.
      rewrite string_app_cons, IH0 by lia. reflexivity.
    + simpl. apply IH. lia.
Qed.

(** ** Zero-padded digits *)

Lemma below_16 (d : Z) :
  (0 <= d < 16)%Z ->
  In d [0; 1; 2; 3; 4; 5; 6; 7; 8; 9; 10; 11; 12; 13; 14; 15]%Z.
Proof. intros H. simpl. lia. Qed.

Lemma digit_val_char (d : Z) : (0 <= d < 16)%Z -> digit_val (digit_char d) = d.
Proof.
  intros H. apply below_16 in H. simpl in H.
  repeat (destruct H as [<- | H]; [reflexivity |]). contradiction.
Qed.

Lemma decimal_val_char (d : Z) : (0 <= d < 10)%Z -> decimal_val (digit_char d) = Some d.
Proof.
  intros H. assert (H' : (0 <= d < 16)%Z) by lia. apply below_16 in H'. simpl in H'.
  repeat (destruct H' as [<- | H']; [reflexivity || lia |]). contradiction.
Qed.

Lemma digit_char_inj (a b : Z) :
  (0 <= a < 16)%Z -> (0 <= b < 16)%Z -> digit_char a = digit_char b -> a = b.
Proof.
  intros Ha Hb H. rewrite <- (digit_val_char a Ha), <- (digit_val_char b Hb), H.
  reflexivity.
Qed.

Lemma zeros_length (k : nat) : String.length (zeros k) = k.
Proof. induction k as [| k IH]; simpl; [reflexivity | by rewrite IH]. Qed.

Lemma zeros_snoc (k : nat) : zeros k +:+ "0" = zeros (S k).
Proof.
  induction k as [| k IH]; [reflexivity |].
  simpl zeros at 1. rewrite string_app_cons, IH. reflexivity.
Qed.

Lemma fixed_digits_length (base : Z) (k : nat) (n : Z) :
  String.length (fixed_digits base k n) = k.
Proof.
  revert n. induction k as [| k IH]; intros n; simpl; [reflexivity |].
  rewrite string_length_app, IH. simpl. lia.
Qed.

Lemma fixed_digits_0 (base : Z) (k : nat) :
  (0 < base)%Z -> fixed_digits base k 0 = zeros k.
Proof.
  intros Hb. induction k as [| k IH]; [reflexivity |].
  simpl fixed_digits. rewrite Z.div_0_l, Z.mod_0_l, IH by lia.
  apply zeros_snoc.
Qed.

(** With enough fuel, padding the digits of [n] up to [k] places gives the
    [k]-digit expansion. *)
Lemma digits_of_fixed (base : Z) :
  (2 <= base)%Z ->
  forall (k fuel : nat) (n : Z),
    (0 <= n < base ^ Z.of_nat k)%Z -> (n < base ^ Z.of_nat fuel)%Z ->
    1 <= fuel -> 1 <= k ->
    String.length (digits_of base fuel n) <= k /\
    zeros (k - String.length (digits_of base fuel n)) +:+ digits_of base fuel n
    = fixed_digits base k n.
Proof.
  intros Hb. induction k as [| k IH]; intros fuel n Hn Hfuel Hf Hk; [lia |].
  destruct fuel as [| f]; [lia |].
  simpl digits_of. simpl fixed_digits.
  destruct (Z.ltb_spec n base) as [Hlt | Hge].
  - rewrite string_app_nil_l. simpl String.length.
    rewrite Z.div_small, fixed_digits_0 by lia.
    split; [lia |]. replace (S k - 1) with k by lia. reflexivity.
  - rewrite Nat2Z.inj_succ, Z.pow_succ_r in Hn, Hfuel by lia.
    assert (Hq : (1 <= n / base)%Z) by (apply Z.div_le_lower_bound; lia).
    assert (Hqk : (n / base < base ^ Z.of_nat k)%Z)
      by (apply Z.div_lt_upper_bound; lia).
    assert (Hqf : (n / base < base ^ Z.of_nat f)%Z)
      by (apply Z.div_lt_upper_bound; lia).
    assert (1 <= k) by (destruct k; [simpl in Hqk; lia | lia]).
    assert (1 <= f) by (destruct f; [simpl in Hqf; lia | lia]).
    destruct (IH f (n / base)%Z) as [Hlen Heq]; try lia.
    rewrite string_length_app. simpl String.length. split; [lia |].
    rewrite <- Heq, string_app_assoc.
    replace (S k - (String.length (digits_of base f (n / base)) + 1))
      with (k - String.length (digits_of base f (n / base))) by lia.
    reflexivity.
Qed.

Lemma digit_fuel_enough (base n : Z) :
  (2 <= base)%Z -> (0 <= n)%Z -> (n < base ^ Z.of_nat (digit_fuel n))%Z.
Proof.
  intros Hb Hn. unfold digit_fuel.
  rewrite Nat2Z.inj_succ, Z2Nat.id by apply Z.log2_nonneg.
  destruct (Z.eq_dec n 0%Z) as [-> | Hnz].
  - apply Z.pow_pos_nonneg; simpl; lia.
  - pose proof (Z.log2_spec n ltac:(lia)) as [_ Hup].
    eapply Z.lt_le_trans; [exact Hup |].
    apply Z.pow_le_mono_l. lia.
Qed.

(** In its range, ['%0<k>d'] (or ['%0<k>x']) prints exactly [k] digits. *)
Lemma format_0_fixed (base : Z) (k : nat) (n : Z) :
  (2 <= base)%Z -> 1 <= k -> (0 <= n < base ^ Z.of_nat k)%Z ->
  format_0 base k n = fixed_digits base k n.
Proof.
  intros Hb Hk Hn. unfold format_0, zfill.
  destruct (Z.ltb_spec n 0%Z) as [Hneg | _]; [lia |].
  apply digits_of_fixed; try lia.
  - apply digit_fuel_enough; lia.
  - unfold digit_fuel. lia.
Qed.

Lemma fixed_digits_inj (base : Z) (k : nat) (n m : Z) :
  (2 <= base <= 16)%Z ->
  (0 <= n < base ^ Z.of_nat k)%Z -> (0 <= m < base ^ Z.of_nat k)%Z ->
  fixed_digits base k n = fixed_digits base k m -> n = m.
Proof.
  intros Hb. revert n m. induction k as [| k IH]; intros n m Hn Hm Heq.
  - simpl in Hn, Hm. lia.
  - simpl in Heq. apply string_app_snoc_inj in Heq. destruct Heq as [Hhi Hlo].
    rewrite Nat2Z.inj_succ, Z.pow_succ_r in Hn, Hm by lia.
    pose proof (Z.mod_pos_bound n base ltac:(lia)).
    pose proof (Z.mod_pos_bound m base ltac:(lia)).
    apply digit_char_inj in Hlo; [| lia | lia].
    apply IH in Hhi.
    + rewrite (Z.div_mod n base), (Z.div_mod m base) by lia. congruence.
    + split; [apply Z.div_pos; lia | apply Z.div_lt_upper_bound; lia].
    + split; [apply Z.div_pos; lia | apply Z.div_lt_upper_bound; lia].
Qed.

(** ** The range of a UUID *)

Lemma fits_range (k x : Z) : (0 <= k)%Z -> fits k x <-> (0 <= x < 2 ^ k)%Z.
Proof.
  intros Hk. unfold fits. rewrite Z.land_ones by exact Hk. split.
  - intros <-. apply Z.mod_pos_bound. apply Z.pow_pos_nonneg; lia.
  - intros H. apply Z.mod_small. exact H.
Qed.

Lemma fits_land (k a m : Z) : fits k a -> fits k (Z.land a m).
Proof.
  unfold fits. intros H.
  rewrite <- Z.land_assoc, (Z.land_comm m), Z.land_assoc, H. reflexivity.
Qed.

Lemma fits_lor (k a b : Z) : fits k a -> fits k b -> fits k (Z.lor a b).
Proof.
  unfold fits. intros Ha Hb. rewrite Z.land_lor_distr_l, Ha, Hb. reflexivity.
Qed.

Lemma int_from_bytes_range (bs : list Z) :
  Forall (fun b => 0 <= b < 256)%Z bs ->
  (0 <= int_from_bytes bs < 256 ^ Z.of_nat (length bs))%Z.
Proof.
  unfold int_from_bytes.
  assert (Hgen : forall (j : nat) (acc : Z),
             Forall (fun b => 0 <= b < 256)%Z bs ->
             (0 <= acc < 256 ^ Z.of_nat j)%Z ->
             (0 <= fold_left (fun acc b => acc * 256 + b) bs acc
              < 256 ^ Z.of_nat (j + length bs))%Z).
  { induction bs as [| b bs IH]; intros j acc Hall Hacc.
    - rewrite Nat.add_0_r. exact Hacc.
    - apply Forall_cons in Hall. destruct Hall as [Hb Hall]. simpl.
      replace (j + S (length bs)) with (S j + length bs) by lia.
      apply IH; [exact Hall |].
      rewrite Nat2Z.inj_succ, Z.pow_succ_r by lia. lia. }
  intros Hall. apply (Hgen 0 0%Z Hall). simpl. lia.
Qed.

(** A UUID built from sixteen bytes is a 128-bit number, whatever the bytes. *)
Lemma UUID_range (bs : list Z) :
  length bs = 16 -> Forall (fun b => 0 <= b < 256)%Z bs ->
  (0 <= UUID bs 4 < 16 ^ 32)%Z.
Proof.
  intros Hlen Hall.
  change (16 ^ 32)%Z with (2 ^ 128)%Z. apply fits_range; [lia |].
  unfold UUID.
  apply fits_lor; [apply fits_land, fits_lor; [apply fits_land |] |].
  - apply fits_range; [lia |].
    pose proof (int_from_bytes_range bs Hall) as H. rewrite Hlen in H. exact H.
  - reflexivity.
  - reflexivity.
Qed.

Lemma uuid_at_range (w : World) (k : nat) : (0 <= uuid_at w k < 16 ^ 32)%Z.
Proof.
  unfold uuid_at. apply UUID_range.
  - rewrite length_map, length_seq. reflexivity.
  - apply Forall_forall. intros b Hb. apply list_elem_of_In, in_map_iff in Hb.
    destruct Hb as [i [<- _]]. apply Z.mod_pos_bound. lia.
Qed.

(** ** The text of a UUID *)

Lemma UUID_str_dashed (n : Z) : UUID_str n = dashed (format_0 16 32 n).
Proof. reflexivity. Qed.

Lemma dashed_groups (h : string) :
  String.length h = 32 ->
  slice 0 8 h +:+ slice 8 12 h +:+ slice 12 16 h +:+ slice 16 20 h
  +:+ slice 20 (String.length h) h = h.
Proof.
  intros Hlen. unfold slice. rewrite Hlen. simpl Nat.sub.
  pose proof (substring_split h 16 4 12 ltac:(lia)) as H1.
  pose proof (substring_split h 12 4 16 ltac:(lia)) as H2.
  pose proof (substring_split h 8 4 20 ltac:(lia)) as H3.
  pose proof (substring_split h 0 8 24 ltac:(lia)) as H4.
  cbn [Nat.add] in H1, H2, H3, H4.
  rewrite H1, H2, H3, H4, <- Hlen. apply substring_0_all.
Qed.

Lemma dash_app_inj (a b : string) : "-" +:+ a = "-" +:+ b -> a = b.
Proof. intros H. change (String "-" a = String "-" b) in H. congruence. Qed.

Lemma dashed_inj (h h' : string) :
  String.length h = 32 -> String.length h' = 32 -> dashed h = dashed h' -> h = h'.
Proof.
  intros Hh Hh' Heq.
  rewrite <- (dashed_groups h Hh), <- (dashed_groups h' Hh').
  unfold dashed in Heq. unfold slice in *. rewrite Hh, Hh' in *. simpl Nat.sub in *.
  apply string_app_inj in Heq; [| rewrite !substring_length by lia; reflexivity].
  destruct Heq as [-> Heq]. apply dash_app_inj in Heq.
  apply string_app_inj in Heq; [| rewrite !substring_length by lia; reflexivity].
  destruct Heq as [-> Heq]. apply dash_app_inj in Heq.
  apply string_app_inj in Heq; [| rewrite !substring_length by lia; reflexivity].
  destruct Heq as [-> Heq]. apply dash_app_inj in Heq.
  apply string_app_inj in Heq; [| rewrite !substring_length by lia; reflexivity].
  destruct Heq as [-> Heq]. apply dash_app_inj in Heq. rewrite Heq.
  reflexivity.
Qed.

(** Distinct 128-bit values print as distinct texts. *)
Lemma UUID_str_inj (n m : Z) :
  (0 <= n < 16 ^ 32)%Z -> (0 <= m < 16 ^ 32)%Z ->
  UUID_str n = UUID_str m -> n = m.
Proof.
  intros Hn Hm Heq. rewrite !UUID_str_dashed in Heq.
  rewrite !format_0_fixed in Heq by (simpl; lia).
  apply dashed_inj in Heq; try apply fixed_digits_length.
  apply (fixed_digits_inj 16 32); [lia | exact Hn | exact Hm | exact Heq].
Qed.

(** ** Content identifiers across the calls of a process *)

Lemma uuid_at_shift (w w' : World) (k : nat) :
  urandom_tape w' = urandom_tape w -> urandom_pos w' = urandom_pos w + 16 ->
  uuid_at w' k = uuid_at w (S k).
Proof.
  intros Ht Hp. unfold uuid_at. rewrite Ht, Hp. f_equal. apply map_ext.
  intros i. f_equal. f_equal. lia.
Qed.

(** Serving a list of requests returns one response per request, and the
    [k]-th response carries the text of the [k]-th UUID drawn. *)
Lemma serve_run (hints : list (option string)) (w : World) :
  exists resps w',
    serve hints w = (Ok resps, w') /\
    length resps = length hints /\
    map (fun r => dict_get r "content_id") resps
    = map (fun k => VStr (UUID_str (uuid_at w k))) (seq 0 (length hints)).
Proof.
  revert w. induction hints as [| hint rest IH]; intros w.
  - exists [], w. repeat split; reflexivity.
  - destruct (recommend_run hint w) as (srv & t & b & _ & _ & Hrun).
    set (w1 := tick_clock (skip_urandom 16 (after_choice (length VIDEOS) (after_resolve hint w)))) in *.
    destruct (IH w1) as (rs & w' & Hserve & Hlen & Hids).
    eexists (_ :: rs), w'. split; [| split].
    + simpl serve. rewrite (bind_ok _ _ _ _ _ Hrun), (bind_ok _ _ _ _ _ Hserve).
      reflexivity.
    + simpl. rewrite Hlen. reflexivity.
    + cbn [length seq map]. unfold dict_get at 1.
      rewrite response_content_id. f_equal.
      rewrite Hids, <- seq_shift, map_map. apply map_ext. intros k.
      rewrite (uuid_at_shift w w1); [reflexivity | |];
        unfold w1; destruct hint; reflexivity.
Qed.

(** C4, as the code has it: over [N] calls of one process, whatever the hints
    and whichever catalog entries are picked, the [content_id]s returned are
    [N] pairwise distinct texts as soon as the UUIDs that the calls draw from
    the entropy source are pairwise distinct. *)
Theorem content_ids_distinct_for_distinct_draws
    (hints : list (option string)) (w : World) :
  NoDup (map (uuid_at w) (seq 0 (length hints))) ->
  exists resps w',
    serve hints w = (Ok resps, w') /\
    length resps = length hints /\
    NoDup (map (fun r => dict_get r "content_id") resps).
Proof.
  intros Hnd.
  destruct (serve_run hints w) as (resps & w' & Hserve & Hlen & Hids).
  exists resps, w'. split; [exact Hserve |]. split; [exact Hlen |].
  rewrite Hids, <- (map_map (uuid_at w) (fun u => VStr (UUID_str u))).
  apply (NoDup_fmap_2_strong (fun u => VStr (UUID_str u))); [| exact Hnd].
  intros u v Hu Hv Heq. injection Heq as Heq.
  apply list_elem_of_In, in_map_iff in Hu. destruct Hu as [i [<- _]].
  apply list_elem_of_In, in_map_iff in Hv. destruct Hv as [j [<- _]].
  apply UUID_str_inj; [apply uuid_at_range | apply uuid_at_range | exact Heq].
Qed.

Lemma content_ids_distinct_for_distinct_draws_witness :
  let hints := [None; Some "edge-eu-1"; Some "edge-eu-1"; None] in
  NoDup (map (uuid_at example_world) (seq 0 (length hints))) /\
  exists resps w',
    serve hints example_world = (Ok resps, w') /\
    length resps = length hints /\
    NoDup (map (fun r => dict_get r "content_id") resps).
Proof.
  intros hints.
  assert (Hnd : NoDup (map (uuid_at example_world) (seq 0 (length hints)))).
  { apply (bool_decide_unpack _). vm_compute. reflexivity. }
  split; [exact Hnd |].
  apply (content_ids_distinct_for_distinct_draws hints example_world Hnd).
Defined.

(** C4, as stated, fails: two consecutive calls return the same [content_id]
    when the entropy source yields the same sixteen bytes twice. *)
Lemma content_id_collision :
  exists resps w',
    serve [None; None] stuck_entropy_world = (Ok resps, w') /\
    map (fun r => dict_get r "content_id") resps
    = [VStr "07070707-0707-4707-8707-070707070707";
       VStr "07070707-0707-4707-8707-070707070707"] /\
    ~ NoDup (map (fun r => dict_get r "content_id") resps).
Proof.
  destruct (serve_run [None; None] stuck_entropy_world)
    as (resps & w' & Hserve & _ & Hids).
  exists resps, w'. split; [exact Hserve |].
  assert (Hcid : map (fun r => dict_get r "content_id") resps
                 = [VStr "07070707-0707-4707-8707-070707070707";
                    VStr "07070707-0707-4707-8707-070707070707"]).
  { rewrite Hids. vm_compute. reflexivity. }
  split; [exact Hcid |].
  rewrite Hcid. intros Hnd. apply NoDup_cons in Hnd. destruct Hnd as [Hnotin _].
  apply Hnotin. left.
Qed.

(** ** Timestamps *)

Lemma read_digits_app (j k : nat) (acc : Z) (s : string) :
  read_digits (j + k) acc s
  = match read_digits j acc s with
    | Some (acc', s') => read_digits k acc' s'
    | None => None
    end.
Proof.
  revert acc s. induction j as [| j IH]; intros acc s; [reflexivity |].
  simpl. destruct s as [| c s]; [reflexivity |].
  destruct (decimal_val c); [apply IH | reflexivity].
Qed.

Lemma read_digits_fixed (k : nat) (n acc : Z) (rest : string) :
  (0 <= n < 10 ^ Z.of_nat k)%Z ->
  read_digits k acc (fixed_digits 10 k n +:+ rest)
  = Some ((acc * 10 ^ Z.of_nat k + n)%Z, rest).
Proof.
  revert n acc rest. induction k as [| k IH]; intros n acc rest Hn.
  - simpl in *. f_equal. f_equal. lia.
  - rewrite Nat2Z.inj_succ, Z.pow_succ_r in * by lia.
    replace (S k) with (k + 1) at 1 by lia.
    simpl fixed_digits. rewrite read_digits_app, string_app_assoc, IH.
    + rewrite string_app_cons, string_app_nil_l. simpl read_digits.
      rewrite decimal_val_char by (apply Z.mod_pos_bound; lia).
      f_equal. f_equal. pose proof (Z.div_mod n 10 ltac:(lia)) as Hdm.
      set (q := (n / 10)%Z) in *. set (r := (n mod 10)%Z) in *.
      rewrite Hdm. ring.
    + split; [apply Z.div_pos; lia | apply Z.div_lt_upper_bound; lia].
Qed.

Lemma read_digits_format (k : nat) (n : Z) (rest : string) :
  1 <= k -> (0 <= n < 10 ^ Z.of_nat k)%Z ->
  read_digits k 0 (format_0 10 k n +:+ rest) = Some (n, rest).
Proof.
  intros Hk Hn. rewrite format_0_fixed, read_digits_fixed by (assumption || lia).
  reflexivity.
Qed.

Lemma expect_app (c : ascii) (rest : string) :
  expect c (String c "" +:+ rest) = Some rest.
Proof.
  rewrite string_app_cons, string_app_nil_l. simpl. rewrite Ascii.eqb_refl.
  reflexivity.
Qed.

Lemma days_in_month_le (y m : Z) : (days_in_month y m <= 31)%Z.
Proof.
  unfold days_in_month.
  destruct (m =? 2)%Z; [destruct (is_leap y); lia |].
  destruct ((m =? 4) || (m =? 6) || (m =? 9) || (m =? 11))%Z; lia.
Qed.

Lemma read_fraction_isoformat (us : Z) :
  (0 <= us < 10 ^ 6)%Z ->
  read_fraction (if (us =? 0)%Z then "" else "." +:+ format_0 10 6 us) = Some us.
Proof.
  intros Hus. destruct (Z.eqb_spec us 0) as [-> | Hnz]; [reflexivity |].
  rewrite string_app_cons, string_app_nil_l. unfold read_fraction.
  cbv beta iota. change (Ascii.eqb "." ".") with true. cbv iota.
  rewrite <- (string_app_nil_r (format_0 10 6 us)).
  rewrite read_digits_format by (lia || exact Hus). reflexivity.
Qed.

(** Reading back what [isoformat] prints gives the datetime printed. *)
Lemma parse_isoformat (d : datetime) :
  valid_datetime d = true -> parse_iso8601 (isoformat d) = Some d.
Proof.
  intros Hv. pose proof Hv as Hb. unfold valid_datetime in Hb.
  repeat (apply andb_prop in Hb; destruct Hb as [Hb ?]).
  repeat match goal with
         | H : Is_true _ |- _ => apply Is_true_true in H
         | H : (_ <=? _)%Z = true |- _ => apply Z.leb_le in H
         end.
  pose proof (days_in_month_le (year d) (month d)).
  unfold parse_iso8601, isoformat.
  rewrite read_digits_format by (simpl; lia). cbn [mbind option_bind].
  rewrite expect_app. cbn [mbind option_bind].
  rewrite read_digits_format by (simpl; lia). cbn [mbind option_bind].
  rewrite expect_app. cbn [mbind option_bind].
  rewrite read_digits_format by (simpl; lia). cbn [mbind option_bind].
  rewrite expect_app. cbn [mbind option_bind].
  rewrite read_digits_format by (simpl; lia). cbn [mbind option_bind].
  rewrite expect_app. cbn [mbind option_bind].
  rewrite read_digits_format by (simpl; lia). cbn [mbind option_bind].
  rewrite expect_app. cbn [mbind option_bind].
  rewrite read_digits_format by (simpl; lia). cbn [mbind option_bind].
  rewrite read_fraction_isoformat by (simpl; lia). cbn [mbind option_bind].
  destruct d. simpl in *. rewrite Hv. reflexivity.
Qed.

Lemma read_fraction_prefix_isoformat (us : Z) :
  (0 <= us < 10 ^ 6)%Z ->
  read_fraction_prefix (if (us =? 0)%Z then "" else "." +:+ format_0 10 6 us)
  = Some (us, "").
Proof.
  intros Hus. destruct (Z.eqb_spec us 0) as [-> | Hnz]; [reflexivity |].
  rewrite string_app_cons, string_app_nil_l. unfold read_fraction_prefix.
  cbv beta iota. change (Ascii.eqb "." ".") with true. cbv iota.
  rewrite <- (string_app_nil_r (format_0 10 6 us)).
  rewrite read_digits_format by (lia || exact Hus). reflexivity.
Qed.

(** What [isoformat] prints has no designator: its reader takes it as local
    time, and so shifts the instant by its own offset. *)
Lemma read_instant_isoformat (local : Z) (d : datetime) :
  valid_datetime d = true ->
  read_instant local (isoformat d) = Some (utc_micros d - local * 60000000)%Z.
Proof.
  intros Hv. pose proof Hv as Hb. unfold valid_datetime in Hb.
  repeat (apply andb_prop in Hb; destruct Hb as [Hb ?]).
  repeat match goal with
         | H : Is_true _ |- _ => apply Is_true_true in H
         | H : (_ <=? _)%Z = true |- _ => apply Z.leb_le in H
         end.
  pose proof (days_in_month_le (year d) (month d)).
  unfold read_instant, isoformat.
  rewrite read_digits_format by (simpl; lia). cbn [mbind option_bind].
  rewrite expect_app. cbn [mbind option_bind].
  rewrite read_digits_format by (simpl; lia). cbn [mbind option_bind].
  rewrite expect_app. cbn [mbind option_bind].
  rewrite read_digits_format by (simpl; lia). cbn [mbind option_bind].
  rewrite expect_app. cbn [mbind option_bind].
  rewrite read_digits_format by (simpl; lia). cbn [mbind option_bind].
  rewrite expect_app. cbn [mbind option_bind].
  rewrite read_digits_format by (simpl; lia). cbn [mbind option_bind].
  rewrite expect_app. cbn [mbind option_bind].
  rewrite read_digits_format by (simpl; lia). cbn [mbind option_bind].
  rewrite read_fraction_prefix_isoformat by (simpl; lia).
  cbn [mbind option_bind read_designator].
  destruct d. simpl in *. rewrite Hv. reflexivity.
Qed.

(** C7, as the code has it: the [timestamp] of a response is the reading of
    the UTC clock taken during the call, printed by [isoformat] with no
    designator of UTC.  Read back, the text gives the calendar fields of that
    reading; as an instant, a reader whose local time is [local] minutes
    ahead of UTC takes it [local] minutes before the instant of creation, so
    it gives the instant of creation to a reader in UTC only. *)
Theorem recommend_timestamp_undesignated_utc
    (hint : option string) (w : World) (local : Z) :
  valid_datetime (clock_tape w (clock_pos w)) = true ->
  exists resp w' ts,
    recommend hint w = (Ok resp, w') /\
    resp !! "timestamp" = Some (VStr ts) /\
    ts = isoformat (clock_tape w (clock_pos w)) /\
    parse_iso8601 ts = Some (clock_tape w (clock_pos w)) /\
    clock_pos w' = S (clock_pos w) /\
    read_instant local ts
    = Some (utc_micros (clock_tape w (clock_pos w)) - local * 60000000)%Z /\
    (read_instant local ts = Some (utc_micros (clock_tape w (clock_pos w)))
     <-> local = 0%Z).
Proof.
  intros Hv.
  destruct (recommend_run hint w) as (srv & t & b & _ & _ & Hrun).
  eexists _, _, _. split; [exact Hrun |].
  split; [apply response_timestamp |]. split; [reflexivity |].
  split; [apply parse_isoformat; exact Hv |].
  split; [destruct hint; reflexivity |].
  rewrite (read_instant_isoformat local _ Hv).
  split; [reflexivity |]. split.
  - intros H. injection H as H. lia.
  - intros ->. f_equal. lia.
Qed.

Lemma recommend_timestamp_undesignated_utc_witness :
  exists resp w',
    recommend (Some "edge-eu-1") example_world = (Ok resp, w') /\
    resp !! "timestamp" = Some (VStr "2024-02-29T13:05:09.000120") /\
    parse_iso8601 "2024-02-29T13:05:09.000120"
    = Some (mkDatetime 2024 2 29 13 5 9 120) /\
    read_instant 0 "2024-02-29T13:05:09.000120" = Some 1709211909000120%Z.
Proof.
  destruct (recommend_timestamp_undesignated_utc (Some "edge-eu-1") example_world 0)
    as (resp & w' & ts & Hrun & Hts & -> & Hparse & _ & Hread & _); [reflexivity |].
  exists resp, w'. split; [exact Hrun |]. split; [exact Hts |].
  split; [exact Hparse | exact Hread].
Defined.

(** C7, as stated, fails: the text has no designator, so it is not read as a
    UTC instant.  A reader one hour ahead of UTC takes the timestamp of a
    response created at 13:05:09.000120 UTC for the instant 12:05:09.000120
    UTC, while it reads the same text followed by [Z] as the instant of
    creation. *)
Lemma recommend_timestamp_read_as_local :
  exists resp w' ts,
    recommend None example_world = (Ok resp, w') /\
    resp !! "timestamp" = Some (VStr ts) /\
    ts = "2024-02-29T13:05:09.000120" /\
    utc_micros (clock_tape example_world (clock_pos example_world))
    = 1709211909000120%Z /\
    read_instant 60 ts = Some 1709208309000120%Z /\
    read_instant 60 ts
    <> Some (utc_micros (clock_tape example_world (clock_pos example_world))) /\
    read_instant 60 (ts +:+ "Z") = Some 1709211909000120%Z.
Proof.
  destruct (recommend_run None example_world) as (srv & t & b & _ & _ & Hrun).
  eexists _, _, _. split; [exact Hrun |].
  split; [apply response_timestamp |].
  split; [vm_compute; reflexivity |].
  split; [vm_compute; reflexivity |].
  split; [vm_compute; reflexivity |].
  split; [vm_compute; discriminate | vm_compute; reflexivity].
Qed.

(** ** Rating submissions *)

Section RateProperties.

Variable repr_float : spec_float -> string.
Variable repr_str : string -> string.

Lemma outcomes_differ : failure_outcome <> success_outcome.
Proof.
  intros H. apply (f_equal (fun d => d !! "message")) in H.
  unfold failure_outcome, success_outcome in H.
  rewrite lookup_insert_eq, lookup_insert_ne, lookup_empty in H by discriminate.
  discriminate.
Qed.

(** The handler has two paths, chosen by the test of its [if]; on the
    second one [print] raises when standard output cannot encode the line. *)
Lemma rate_run payload w :
  rate repr_float repr_str payload w =
    if negb (truthy (dict_get payload "content_id"))
       || is_None (dict_get payload "rating")
    then (Ok failure_outcome, w)
    else if stdout_encodes w (rate_line repr_float repr_str payload)
         then (Ok success_outcome,
               write_stdout (rate_line repr_float repr_str payload) w)
         else (Raise UnicodeEncodeError, w).
Proof.
  unfold rate, rate_line.
  destruct (negb (truthy (dict_get payload "content_id"))
            || is_None (dict_get payload "rating")); [reflexivity |].
  unfold bind, print.
  destruct (stdout_encodes w _); reflexivity.
Qed.

(** C2: a submission whose [content_id] is missing, null or the empty
    string, or whose [rating] is missing or null, does not raise: it
    returns the failure dictionary, whose status is ["error"] and whose
    message is a non-empty text. *)
Theorem rate_invalid_payload (payload : gmap string value) (w : World) :
  payload !! "content_id" = None \/
  payload !! "content_id" = Some VNone \/
  payload !! "content_id" = Some (VStr "") \/
  payload !! "rating" = None \/
  payload !! "rating" = Some VNone ->
  exists out w',
    rate repr_float repr_str payload w = (Ok out, w') /\
    out !! "status" = Some (VStr "error") /\
    exists reason, out !! "message" = Some (VStr reason) /\ reason <> "".
Proof.
  intros H.
  exists failure_outcome, w. split.
  - rewrite rate_run. unfold dict_get.
    destruct H as [H | [H | [H | [H | H]]]]; rewrite H; simpl;
      rewrite ?orb_true_r; reflexivity.
  - unfold failure_outcome. split.
    + by simplify_map_eq.
    + exists "Invalid payload". split; [by simplify_map_eq | discriminate].
Qed.


(** C10: a call either fails and leaves the world, standard output
    included, as it was, or succeeds and appends one line to standard
    output, or raises in [print] before anything is written and leaves the
    world as it was; so a line is written exactly when the outcome is the
    success dictionary. *)
Theorem rate_logs_iff_success (payload : gmap string value) (w : World) :
  exists res w',
    rate repr_float repr_str payload w = (res, w') /\
    (res = Ok failure_outcome /\ w' = w \/
     res = Ok success_outcome /\
     stdout w' = stdout w ++ [rate_line repr_float repr_str payload] \/
     res = Raise UnicodeEncodeError /\ w' = w) /\
    (res = Ok failure_outcome -> stdout w' = stdout w) /\
    (stdout w' <> stdout w <-> res = Ok success_outcome).
Proof.
  assert (Hgrow : forall l : list string, forall x, l ++ [x] <> l).
  { intros l x H. apply (f_equal (@length _)) in H.
    rewrite length_app in H. simpl in H. lia. }
  rewrite rate_run.
  destruct (negb (truthy (dict_get payload "content_id"))
            || is_None (dict_get payload "rating")).
  - eexists _, w. split; [reflexivity |].
    split; [left; split; reflexivity |]. split; [reflexivity |]. split.
    + intros H. contradiction H. reflexivity.
    + intros H. apply Ok_inj in H. destruct (outcomes_differ H).
  - destruct (stdout_encodes w (rate_line repr_float repr_str payload)).
    + eexists _, _. split; [reflexivity |].
      split; [right; left; split; reflexivity |]. split.
      * intros H. apply Ok_inj in H. symmetry in H. destruct (outcomes_differ H).
      * simpl. split; [reflexivity |]. intros _. apply Hgrow.
    + eexists _, w. split; [reflexivity |].
      split; [right; right; split; reflexivity |]. split; [reflexivity |]. split.
      * intros H. contradiction H. reflexivity.
      * intros H. discriminate H.
Qed.

End RateProperties.

Lemma rate_invalid_payload_witness :
  let payload : gmap string value :=
    <["rating" := VInt 4]> (<["content_id" := VStr ""]> ∅) in
  exists out w',
    rate example_repr_float example_repr_str payload example_world = (Ok out, w') /\
    out !! "status" = Some (VStr "error") /\
    exists reason, out !! "message" = Some (VStr reason) /\ reason <> "".
Proof.
  intros payload.
  apply (rate_invalid_payload example_repr_float example_repr_str payload example_world).
  right. right. left. reflexivity.
Defined.



(** * Further properties of the backend *)

(** ** What a recommendation consumes *)

(** X1: a recommendation always returns, and all it does to the world is to
    advance the three tapes: it consumes sixteen bytes of entropy, one
    reading of the clock and the words of the generator that its choices
    draw, one choice among the catalog, after one among the known edges when
    no hint is given; a choice reads at least one word, and no more than one
    past the end of the tape.  The call prints nothing. *)
Theorem recommend_world_effects (hint : option string) (w : World) :
  exists resp w',
    recommend hint w = (Ok resp, w') /\
    stdout w' = stdout w /\
    stdout_encodes w' = stdout_encodes w /\
    random_tape w' = random_tape w /\
    urandom_tape w' = urandom_tape w /\
    clock_tape w' = clock_tape w /\
    urandom_pos w' = urandom_pos w + 16 /\
    clock_pos w' = S (clock_pos w) /\
    random_pos w'
    = random_pos w
      + match hint with Some _ => 0 | None => words_drawn (length REGIONS) w end
      + words_drawn (length VIDEOS) (after_resolve hint w) /\
    1 <= words_drawn (length REGIONS) w <= S (length (remaining w)) /\
    1 <= words_drawn (length VIDEOS) (after_resolve hint w)
      <= S (length (remaining (after_resolve hint w))).
Proof.
  destruct (recommend_run hint w) as (srv & t & b & _ & _ & Hrun).
  eexists _, _. split; [exact Hrun |].
  do 7 (split; [destruct hint; reflexivity |]).
  split.
  - destruct hint;
      cbn [random_pos tick_clock skip_urandom after_choice after_resolve skip_random];
      lia.
  - split; apply first_below_words.
Qed.

(** ** The shape of a content identifier *)

Lemma fixed_digits_get (base : Z) (k i : nat) (n : Z) :
  (0 < base)%Z -> i < k ->
  get i (fixed_digits base k n)
  = Some (digit_char ((n / base ^ Z.of_nat (k - 1 - i)) mod base)).
Proof.
  intros Hb. revert n i. induction k as [| k IH]; intros n i Hi; [lia |].
  simpl fixed_digits. destruct (Nat.eq_dec i k) as [-> | Hne].
  - pose proof (append_correct2 (fixed_digits base k (n / base))
                  (String (digit_char (n mod base)) "") 0) as H.
    rewrite fixed_digits_length in H. simpl in H. rewrite <- H.
    replace (S k - 1 - k) with 0 by lia. rewrite Z.pow_0_r, Z.div_1_r. reflexivity.
  - rewrite <- append_correct1 by (rewrite fixed_digits_length; lia).
    rewrite IH by lia. do 2 f_equal.
    replace (S k - 1 - i) with (S (k - 1 - i)) by lia.
    rewrite Nat2Z.inj_succ, Z.pow_succ_r, Z.div_div by lia.
    reflexivity.
Qed.

Lemma dashed_shape (h : string) :
  String.length h = 32 ->
  String.length (dashed h) = 36 /\
  get 8 (dashed h) = Some "-"%char /\ get 13 (dashed h) = Some "-"%char /\
  get 18 (dashed h) = Some "-"%char /\ get 23 (dashed h) = Some "-"%char /\
  get 14 (dashed h) = get 12 h /\ get 19 (dashed h) = get 16 h.
Proof.
  intros Hlen.
  do 32 (destruct h as [| ? h]; [discriminate Hlen |]).
  destruct h; [| discriminate Hlen].
  repeat split; reflexivity.
Qed.

(** Bits 76 to 79 of a version-4 UUID spell the version. *)
Lemma UUID_version_nibble (bs : list Z) : ((UUID bs 4 / 16 ^ 19) mod 16 = 4)%Z.
Proof.
  change (16 ^ 19)%Z with (2 ^ 76)%Z. change 16%Z with (2 ^ 4)%Z.
  rewrite <- Z.shiftr_div_pow2, <- Z.land_ones by lia.
  apply Z.bits_inj'. intros i Hi.
  rewrite Z.land_spec, Z.shiftr_spec by lia. unfold UUID.
  rewrite Z.lor_spec, Z.land_spec.
  assert (Hc : (i = 0 \/ i = 1 \/ i = 2 \/ i = 3 \/ 4 <= i)%Z) by lia.
  destruct Hc as [-> | [-> | [-> | [-> | Hhi]]]].
  - change (Z.testbit (Z.lnot (Z.shiftl 61440 64)) (0 + 76)) with false.
    rewrite andb_false_r. reflexivity.
  - change (Z.testbit (Z.lnot (Z.shiftl 61440 64)) (1 + 76)) with false.
    rewrite andb_false_r. reflexivity.
  - change (Z.testbit (Z.lnot (Z.shiftl 61440 64)) (2 + 76)) with false.
    rewrite andb_false_r. reflexivity.
  - change (Z.testbit (Z.lnot (Z.shiftl 61440 64)) (3 + 76)) with false.
    rewrite andb_false_r. reflexivity.
  - rewrite Z.ones_spec_high, andb_false_r by lia.
    symmetry. apply Z.bits_above_log2; simpl; lia.
Qed.

(** Replace the bits of closed numbers by their values. *)
Ltac eval_bits :=
  repeat match goal with
         | |- context [Z.testbit ?a ?b] =>
             let v := eval vm_compute in (Z.testbit a b) in
             match v with
             | true => change (Z.testbit a b) with true
             | false => change (Z.testbit a b) with false
             end
         end.

(** Bits 62 and 63 of a UUID spell the RFC 4122 variant, [10]. *)
Lemma UUID_variant_nibble (bs : list Z) :
  In ((UUID bs 4 / 16 ^ 15) mod 16)%Z [8; 9; 10; 11]%Z.
Proof.
  set (v := ((UUID bs 4 / 16 ^ 15) mod 16)%Z).
  assert (Hrange : (0 <= v < 16)%Z) by (apply Z.mod_pos_bound; lia).
  assert (Hbits : Z.land v 12 = 8%Z).
  { unfold v. change (16 ^ 15)%Z with (2 ^ 60)%Z. change 16%Z with (2 ^ 4)%Z.
    rewrite <- Z.shiftr_div_pow2, <- Z.land_ones, <- Z.land_assoc by lia.
    change (Z.land (Z.ones 4) 12) with 12%Z.
    apply Z.bits_inj'. intros i Hi.
    rewrite Z.land_spec, Z.shiftr_spec by lia. unfold UUID.
    rewrite !Z.lor_spec, !Z.land_spec, !Z.lor_spec, !Z.land_spec.
    assert (Hc : (i = 0 \/ i = 1 \/ i = 2 \/ i = 3 \/ 4 <= i)%Z) by lia.
    destruct Hc as [-> | [-> | [-> | [-> | Hhi]]]].
    - eval_bits. apply andb_false_r.
    - eval_bits. apply andb_false_r.
    - eval_bits. rewrite andb_false_r. reflexivity.
    - eval_bits. rewrite orb_true_r. reflexivity.
    - rewrite (Z.bits_above_log2 12 i), (Z.bits_above_log2 8 i) by (simpl; lia).
      apply andb_false_r. }
  apply below_16 in Hrange. simpl in Hrange. simpl.
  repeat (destruct Hrange as [Hv | Hrange];
          [rewrite <- Hv in Hbits |- *; first [discriminate Hbits | tauto] |]).
  contradiction.
Qed.

(** X2: every [content_id] is a text of 36 characters in the 8-4-4-4-12 layout
    of a UUID: hyphens at positions 8, 13, 18 and 23, the version digit [4]
    at position 14 and one of [8], [9], [a], [b] at position 19. *)
Theorem recommend_content_id_layout (hint : option string) (w : World) :
  exists resp w' cid,
    recommend hint w = (Ok resp, w') /\
    resp !! "content_id" = Some (VStr cid) /\
    String.length cid = 36 /\
    get 8 cid = Some "-"%char /\ get 13 cid = Some "-"%char /\
    get 18 cid = Some "-"%char /\ get 23 cid = Some "-"%char /\
    get 14 cid = Some "4"%char /\
    (exists c, get 19 cid = Some c /\ In c ["8"; "9"; "a"; "b"]%char).
Proof.
  destruct (recommend_run hint w) as (srv & t & b & _ & _ & Hrun).
  eexists _, _, _. split; [exact Hrun |].
  split; [apply response_content_id |].
  rewrite UUID_str_dashed, format_0_fixed
    by (try apply uuid_at_range; simpl; lia).
  destruct (dashed_shape (fixed_digits 16 32 (uuid_at w 0)))
    as (Hlen & H8 & H13 & H18 & H23 & H14 & H19);
    [apply fixed_digits_length |].
  repeat (split; [assumption |]).
  rewrite H14, H19, !fixed_digits_get by lia. split.
  - change (Z.of_nat (32 - 1 - 12)) with 19%Z. unfold uuid_at.
    rewrite UUID_version_nibble. reflexivity.
  - eexists. split; [reflexivity |].
    change (Z.of_nat (32 - 1 - 16)) with 15%Z. unfold uuid_at.
    match goal with
    | |- context [UUID ?bs 4] => pose proof (UUID_variant_nibble bs) as Hv
    end.
    cbn [In] in Hv. destruct Hv as [<- | [<- | [<- | [<- | []]]]]; simpl; tauto.
Qed.

(** ** What the hint can influence *)

Lemma drawn_reads (n : nat) (w1 w2 : World) :
  random_tape w1 = random_tape w2 -> random_pos w1 = random_pos w2 ->
  drawn n w1 = drawn n w2 /\ words_drawn n w1 = words_drawn n w2.
Proof.
  intros Ht Hp. unfold drawn, words_drawn, remaining. rewrite Ht, Hp.
  split; reflexivity.
Qed.

Lemma after_resolve_reads (hint : option string) (w1 w2 : World) :
  random_tape w1 = random_tape w2 -> random_pos w1 = random_pos w2 ->
  random_tape (after_resolve hint w1) = random_tape (after_resolve hint w2) /\
  random_pos (after_resolve hint w1) = random_pos (after_resolve hint w2).
Proof.
  intros Ht Hp. destruct hint as [h |]; [split; assumption |].
  destruct (drawn_reads (length REGIONS) w1 w2 Ht Hp) as [_ Hw].
  split; [exact Ht |]. cbn [after_resolve after_choice skip_random random_pos].
  rewrite Hp, Hw. reflexivity.
Qed.

(** The response of [recommend] is a function of the hint and of what the
    call reads in the world. *)
Lemma recommend_reads (hint : option string) (w1 w2 : World) :
  random_tape w1 = random_tape w2 -> random_pos w1 = random_pos w2 ->
  urandom_tape w1 = urandom_tape w2 -> urandom_pos w1 = urandom_pos w2 ->
  clock_tape w1 = clock_tape w2 -> clock_pos w1 = clock_pos w2 ->
  fst (recommend hint w1) = fst (recommend hint w2).
Proof.
  intros Hrt Hrp Hut Hup Hct Hcp.
  destruct (recommend_run hint w1) as (s1 & t1 & b1 & Hs1 & Hv1 & Hrun1).
  destruct (recommend_run hint w2) as (s2 & t2 & b2 & Hs2 & Hv2 & Hrun2).
  rewrite Hrun1, Hrun2. simpl.
  destruct (after_resolve_reads hint w1 w2 Hrt Hrp) as [Hat Hap].
  destruct (drawn_reads (length VIDEOS) _ _ Hat Hap) as [Hd _].
  rewrite Hd, Hv2 in Hv1.
  assert (Hvid : content_item t2 b2 = content_item t1 b1) by congruence.
  assert (Ht : t2 = t1).
  { apply (f_equal (fun d => d !! "title")) in Hvid.
    rewrite !content_item_title in Hvid. congruence. }
  assert (Hb : b2 = b1).
  { apply (f_equal (fun d => d !! "body")) in Hvid.
    rewrite !content_item_body in Hvid. congruence. }
  assert (Hs : s1 = s2).
  { destruct hint; [congruence |].
    destruct (drawn_reads (length REGIONS) w1 w2 Hrt Hrp) as [Hd3 _].
    rewrite Hd3, Hs2 in Hs1. congruence. }
  unfold uuid_at. rewrite Hut, Hup, Hct, Hcp, Ht, Hb, Hs. reflexivity.
Qed.

(** X3: the hint never reaches the identifier or the timestamp; and between two
    calls that both carry a hint, the responses differ in nothing but
    [server_id] and [server_region]. *)
Theorem recommend_hint_only_sets_edge (w : World) :
  (forall h1 h2 : option string,
     exists r1 w1 r2 w2,
       recommend h1 w = (Ok r1, w1) /\ recommend h2 w = (Ok r2, w2) /\
       r1 !! "content_id" = r2 !! "content_id" /\
       r1 !! "timestamp" = r2 !! "timestamp") /\
  (forall h1 h2 : string,
     exists r1 w1 r2 w2,
       recommend (Some h1) w = (Ok r1, w1) /\ recommend (Some h2) w = (Ok r2, w2) /\
       w1 = w2 /\
       forall k, k <> "server_id" -> k <> "server_region" -> r1 !! k = r2 !! k).
Proof.
  split.
  - intros h1 h2.
    destruct (recommend_run h1 w) as (s1 & t1 & b1 & _ & _ & Hrun1).
    destruct (recommend_run h2 w) as (s2 & t2 & b2 & _ & _ & Hrun2).
    eexists _, _, _, _. split; [exact Hrun1 |]. split; [exact Hrun2 |].
    rewrite !response_content_id, !response_timestamp. split; reflexivity.
  - intros h1 h2.
    destruct (recommend_run (Some h1) w) as (s1 & t1 & b1 & -> & Hv1 & Hrun1).
    destruct (recommend_run (Some h2) w) as (s2 & t2 & b2 & -> & Hv2 & Hrun2).
    simpl in Hv1, Hv2. rewrite Hv1 in Hv2.
    assert (Hvid : content_item t1 b1 = content_item t2 b2) by congruence.
    assert (Ht : t1 = t2).
    { apply (f_equal (fun d => d !! "title")) in Hvid.
      rewrite !content_item_title in Hvid. congruence. }
    assert (Hb : b1 = b2).
    { apply (f_equal (fun d => d !! "body")) in Hvid.
      rewrite !content_item_body in Hvid. congruence. }
    subst t2 b2.
    eexists _, _, _, _. split; [exact Hrun1 |]. split; [exact Hrun2 |].
    split; [reflexivity |].
    intros k Hk1 Hk2. unfold response.
    destruct (decide (k = "timestamp")) as [-> | Hk3].
    + rewrite !lookup_insert_eq. reflexivity.
    + rewrite !(lookup_insert_ne _ "timestamp") by congruence.
      rewrite !(lookup_insert_ne _ "server_region"),
        !(lookup_insert_ne _ "server_id") by congruence.
      reflexivity.
Qed.

(** ** The two shapes of a timestamp *)

Lemma format_0_length (k : nat) (n : Z) :
  1 <= k -> (0 <= n < 10 ^ Z.of_nat k)%Z -> String.length (format_0 10 k n) = k.
Proof.
  intros Hk Hn. rewrite format_0_fixed by (assumption || lia).
  apply fixed_digits_length.
Qed.

Lemma valid_datetime_ranges (d : datetime) :
  valid_datetime d = true ->
  (1 <= year d <= 9999 /\ 1 <= month d <= 12 /\ 1 <= day d <= 31 /\
   0 <= hour d <= 23 /\ 0 <= minute d <= 59 /\ 0 <= second d <= 59 /\
   0 <= microsecond d <= 999999)%Z.
Proof.
  intros Hb. unfold valid_datetime in Hb.
  repeat (apply andb_prop in Hb; destruct Hb as [Hb ?]).
  repeat match goal with
         | H : Is_true _ |- _ => apply Is_true_true in H
         | H : (_ <=? _)%Z = true |- _ => apply Z.leb_le in H
         end.
  pose proof (days_in_month_le (year d) (month d)). lia.
Qed.

(** X4: the timestamp has 19 characters when the clock reading falls on a whole
    second, because [isoformat] then prints no fraction, and 26 otherwise. *)
Theorem recommend_timestamp_length (hint : option string) (w : World) :
  valid_datetime (clock_tape w (clock_pos w)) = true ->
  exists resp w' ts,
    recommend hint w = (Ok resp, w') /\
    resp !! "timestamp" = Some (VStr ts) /\
    String.length ts
    = (if (microsecond (clock_tape w (clock_pos w)) =? 0)%Z then 19 else 26) /\
    get 10 ts = Some "T"%char /\
    (forall c, get 19 ts = Some c -> c = "."%char).
Proof.
  intros Hv.
  destruct (recommend_run hint w) as (srv & t & b & _ & _ & Hrun).
  eexists _, _, _. split; [exact Hrun |].
  split; [apply response_timestamp |].
  set (d := clock_tape w (clock_pos w)) in *.
  pose proof (valid_datetime_ranges d Hv) as (Hy & Hmo & Hd & Hh & Hmi & Hs & Hus).
  unfold isoformat.
  rewrite !(format_0_fixed 10 4), !(format_0_fixed 10 2) by (simpl; lia).
  assert (Hfrac : (microsecond d =? 0)%Z = false ->
                  format_0 10 6 (microsecond d) = fixed_digits 10 6 (microsecond d)).
  { intros _. apply format_0_fixed; simpl; lia. }
  pose proof (fixed_digits_length 10 4 (year d)) as L1.
  pose proof (fixed_digits_length 10 2 (month d)) as L2.
  pose proof (fixed_digits_length 10 2 (day d)) as L3.
  pose proof (fixed_digits_length 10 2 (hour d)) as L4.
  pose proof (fixed_digits_length 10 2 (minute d)) as L5.
  pose proof (fixed_digits_length 10 2 (second d)) as L6.
  pose proof (fixed_digits_length 10 6 (microsecond d)) as L7.
  destruct (fixed_digits 10 4 (year d)) as [| y0 [| y1 [| y2 [| y3 [| ? ?]]]]];
    try discriminate L1.
  destruct (fixed_digits 10 2 (month d)) as [| m0 [| m1 [| ? ?]]]; try discriminate L2.
  destruct (fixed_digits 10 2 (day d)) as [| d0 [| d1 [| ? ?]]]; try discriminate L3.
  destruct (fixed_digits 10 2 (hour d)) as [| h0 [| h1 [| ? ?]]]; try discriminate L4.
  destruct (fixed_digits 10 2 (minute d)) as [| i0 [| i1 [| ? ?]]]; try discriminate L5.
  destruct (fixed_digits 10 2 (second d)) as [| s0 [| s1 [| ? ?]]]; try discriminate L6.
  destruct (microsecond d =? 0)%Z.
  - repeat split; try reflexivity. intros c Hc. discriminate Hc.
  - rewrite Hfrac by reflexivity.
    destruct (fixed_digits 10 6 (microsecond d))
      as [| u0 [| u1 [| u2 [| u3 [| u4 [| u5 [| ? ?]]]]]]]; try discriminate L7.
    repeat split; try reflexivity. intros c Hc.
    change (Some "."%char = Some c) in Hc. congruence.
Qed.

Lemma recommend_timestamp_length_witness :
  exists resp w' ts,
    recommend None example_world = (Ok resp, w') /\
    resp !! "timestamp" = Some (VStr ts) /\
    String.length ts = 26 /\
    get 10 ts = Some "T"%char /\
    (forall c, get 19 ts = Some c -> c = "."%char).
Proof.
  apply (recommend_timestamp_length None example_world). reflexivity.
Defined.

(** X5: calls that read different instants off the clock stamp their responses
    with different texts. *)
Theorem recommend_timestamp_injective (h1 h2 : option string) (w1 w2 : World) :
  valid_datetime (clock_tape w1 (clock_pos w1)) = true ->
  valid_datetime (clock_tape w2 (clock_pos w2)) = true ->
  clock_tape w1 (clock_pos w1) <> clock_tape w2 (clock_pos w2) ->
  exists r1 w1' r2 w2',
    recommend h1 w1 = (Ok r1, w1') /\ recommend h2 w2 = (Ok r2, w2') /\
    r1 !! "timestamp" <> r2 !! "timestamp".
Proof.
  intros Hv1 Hv2 Hne.
  destruct (recommend_run h1 w1) as (s1 & t1 & b1 & _ & _ & Hrun1).
  destruct (recommend_run h2 w2) as (s2 & t2 & b2 & _ & _ & Hrun2).
  eexists _, _, _, _. split; [exact Hrun1 |]. split; [exact Hrun2 |].
  rewrite !response_timestamp. intros Heq. apply Hne.
  assert (Hp : parse_iso8601 (isoformat (clock_tape w1 (clock_pos w1)))
               = parse_iso8601 (isoformat (clock_tape w2 (clock_pos w2))))
    by congruence.
  rewrite !parse_isoformat in Hp by assumption. congruence.
Qed.

Lemma recommend_timestamp_injective_witness :
  exists r1 w1' r2 w2',
    recommend None example_world = (Ok r1, w1') /\
    recommend None stuck_entropy_world = (Ok r2, w2') /\
    r1 !! "timestamp" <> r2 !! "timestamp".
Proof.
  apply (recommend_timestamp_injective None None example_world stuck_entropy_world);
    [reflexivity | reflexivity | discriminate].
Defined.

(** ** More on rating submissions *)

Section RateExtras.

Variable repr_float : spec_float -> string.
Variable repr_str : string -> string.

(** X6: a submission passes the validation exactly when its [content_id] is
    truthy and its [rating] is not [None], whatever the types of the two
    values: a present but falsy [content_id] such as [0] or [[]] is refused
    with the failure dictionary, a falsy rating such as [0] is not.  A
    submission that passes is answered with the success dictionary when
    standard output can encode its log line; when it cannot, the call raises
    [UnicodeEncodeError].  There is no other outcome. *)
Theorem rate_accepts_iff (payload : gmap string value) (w : World) :
  exists res w',
    rate repr_float repr_str payload w = (res, w') /\
    (res = Ok failure_outcome <->
     truthy (dict_get payload "content_id") = false \/
     dict_get payload "rating" = VNone) /\
    (res = Ok success_outcome <->
     truthy (dict_get payload "content_id") = true /\
     dict_get payload "rating" <> VNone /\
     stdout_encodes w (rate_line repr_float repr_str payload) = true) /\
    (res = Raise UnicodeEncodeError <->
     truthy (dict_get payload "content_id") = true /\
     dict_get payload "rating" <> VNone /\
     stdout_encodes w (rate_line repr_float repr_str payload) = false) /\
    (res = Ok failure_outcome \/ res = Ok success_outcome \/
     res = Raise UnicodeEncodeError).
Proof.
  rewrite rate_run.
  assert (Hnone : forall v, is_None v = true <-> v = VNone).
  { intros v. destruct v; simpl; split; congruence. }
  assert (Hfs : @Ok (gmap string value) failure_outcome <> Ok success_outcome).
  { intros H. apply Ok_inj in H. exact (outcomes_differ H). }
  assert (Hsf : @Ok (gmap string value) success_outcome <> Ok failure_outcome).
  { intros H. symmetry in H. exact (Hfs H). }
  destruct (truthy (dict_get payload "content_id")) eqn:Ht; simpl.
  - destruct (is_None (dict_get payload "rating")) eqn:Hn.
    + apply Hnone in Hn. eexists _, _. split; [reflexivity |].
      split; [split; [intros _; right; exact Hn | reflexivity] |].
      split; [split; [intros H; destruct (Hfs H) | intros (_ & H & _); contradiction] |].
      split; [split; [discriminate | intros (_ & H & _); contradiction] |].
      left. reflexivity.
    + assert (Hn' : dict_get payload "rating" <> VNone).
      { intros H. apply Hnone in H. congruence. }
      destruct (stdout_encodes w (rate_line repr_float repr_str payload)).
      * eexists _, _. split; [reflexivity |].
        split; [split; [intros H; destruct (Hsf H)
                       | intros [H | H]; [discriminate | contradiction]] |].
        split; [split; [intros _; repeat split; assumption | reflexivity] |].
        split; [split; [discriminate | intros (_ & _ & H); discriminate] |].
        right. left. reflexivity.
      * eexists _, _. split; [reflexivity |].
        split; [split; [discriminate
                       | intros [H | H]; [discriminate | contradiction]] |].
        split; [split; [discriminate | intros (_ & _ & H); discriminate] |].
        split; [split; [intros _; repeat split; assumption | reflexivity] |].
        right. right. reflexivity.
  - eexists _, _. split; [reflexivity |].
    split; [split; [intros _; left; reflexivity | reflexivity] |].
    split; [split; [intros H; destruct (Hfs H) | intros (H & _); discriminate] |].
    split; [split; [discriminate | intros (H & _); discriminate] |].
    left. reflexivity.
Qed.

(** X7: the handler reads the payload through [.get] of two keys only: payloads
    that agree there, say because they differ in other keys or because one
    leaves out a key that the other binds to [None], are treated alike. *)
Theorem rate_reads_two_keys (p1 p2 : gmap string value) (w : World) :
  dict_get p1 "content_id" = dict_get p2 "content_id" ->
  dict_get p1 "rating" = dict_get p2 "rating" ->
  rate repr_float repr_str p1 w = rate repr_float repr_str p2 w.
Proof.
  intros Hc Hr. rewrite !rate_run. unfold rate_line. rewrite Hc, Hr. reflexivity.
Qed.

(** X8: the handler keeps no state: the outcome of a submission, raised or
    returned, does not depend on the submissions before it, and standard
    output collects the lines of the accepted ones in order, so a
    resubmission is logged once more. *)
Theorem rate_history_independent (p1 p2 : gmap string value) (w : World) :
  exists res1 w1 res2 w2,
    rate repr_float repr_str p1 w = (res1, w1) /\
    rate repr_float repr_str p2 w1 = (res2, w2) /\
    fst (rate repr_float repr_str p2 w) = res2 /\
    stdout w2 = stdout w ++ rate_lines repr_float repr_str (stdout_encodes w) p1
                         ++ rate_lines repr_float repr_str (stdout_encodes w) p2.
Proof.
  rewrite (rate_run _ _ p1 w). unfold rate_lines.
  destruct (negb (truthy (dict_get p1 "content_id")) || is_None (dict_get p1 "rating")).
  - eexists _, w. rewrite (rate_run _ _ p2 w).
    destruct (negb (truthy (dict_get p2 "content_id")) || is_None (dict_get p2 "rating"));
      [| destruct (stdout_encodes w (rate_line repr_float repr_str p2))];
      eexists _, _; repeat split; simpl; rewrite ?app_nil_r; reflexivity.
  - destruct (stdout_encodes w (rate_line repr_float repr_str p1)) eqn:He1;
      [exists (Ok success_outcome), (write_stdout (rate_line repr_float repr_str p1) w)
      | exists (Raise UnicodeEncodeError), w];
      rewrite !(rate_run _ _ p2); cbn [stdout_encodes write_stdout];
      (destruct (negb (truthy (dict_get p2 "content_id")) || is_None (dict_get p2 "rating"));
       [| destruct (stdout_encodes w (rate_line repr_float repr_str p2))]);
      eexists _, _; repeat split; simpl; rewrite ?app_nil_r, <- ?app_assoc; reflexivity.
Qed.

(** X9: the two handlers do not disturb each other: a recommendation is the same
    before and after a rating submission, and the outcome of a submission is
    the same before and after a recommendation. *)
Theorem recommend_rate_independent
    (hint : option string) (payload : gmap string value) (w : World) :
  fst (recommend hint (snd (rate repr_float repr_str payload w)))
  = fst (recommend hint w) /\
  fst (rate repr_float repr_str payload (snd (recommend hint w)))
  = fst (rate repr_float repr_str payload w).
Proof.
  split.
  - apply recommend_reads; rewrite rate_run;
      (destruct (negb (truthy (dict_get payload "content_id"))
                 || is_None (dict_get payload "rating"));
       [| destruct (stdout_encodes w (rate_line repr_float repr_str payload))]);
      reflexivity.
  - destruct (recommend_run hint w) as (srv & t & b & _ & _ & Hrun).
    rewrite Hrun, !rate_run. cbn [snd].
    replace (stdout_encodes
               (tick_clock (skip_urandom 16
                  (after_choice (length VIDEOS) (after_resolve hint w)))))
      with (stdout_encodes w) by (destruct hint; reflexivity).
    destruct (negb (truthy (dict_get payload "content_id"))
              || is_None (dict_get payload "rating")); [reflexivity |].
    destruct (stdout_encodes w (rate_line repr_float repr_str payload)); reflexivity.
Qed.

End RateExtras.

Lemma rate_reads_two_keys_witness :
  let p1 : gmap string value :=
    <["client" := VStr "dashboard"]>
      (<["rating" := VInt 4]> (<["content_id" := VStr "abc-123"]> ∅)) in
  let p2 : gmap string value :=
    <["rating" := VInt 4]> (<["content_id" := VStr "abc-123"]> ∅) in
  rate example_repr_float example_repr_str p1 example_world
  = rate example_repr_float example_repr_str p2 example_world.
Proof.
  intros p1 p2.
  apply (rate_reads_two_keys example_repr_float example_repr_str p1 p2 example_world);
    reflexivity.
Defined.

(** * Properties of the dashboard *)

(** ** Running a script *)

Lemma ui_bind_done {A B} (c : UI A) (k : A -> UI B) b a b' :
  c b = (Done a, b') -> ui_bind c k b = k a b'.
Proof. intros H. unfold ui_bind. rewrite H. reflexivity. Qed.

Lemma ui_bind_crash {A B} (c : UI A) (k : A -> UI B) b e b' :
  c b = (Crash e, b') -> ui_bind c k b = (Crash e, b').
Proof. intros H. unfold ui_bind. rewrite H. reflexivity. Qed.

Lemma with_session_same (b : Browser) : with_session (session_state b) b = b.
Proof. destruct b. reflexivity. Qed.

Lemma with_session_twice (s s' : gmap string value) (b : Browser) :
  with_session s' (with_session s b) = with_session s' b.
Proof. reflexivity. Qed.

(** ** The session state *)

Lemma init_key_run (key : string) (v : value) (b : Browser) :
  init_key key v b
  = (Done tt,
     with_session (match session_state b !! key with
                   | Some _ => session_state b
                   | None => <[key := v]> (session_state b)
                   end) b).
Proof.
  unfold init_key, ui_bind, session_has, session_set, ui_ret.
  destruct (session_state b !! key) as [x |] eqn:Hk.
  - rewrite bool_decide_eq_true_2 by eauto. rewrite with_session_same. reflexivity.
  - rewrite bool_decide_eq_false_2 by (intros [? ?]; discriminate). reflexivity.
Qed.

(** What [init_state] does to a session. *)
Lemma init_state_spec (b : Browser) :
  exists s',
    init_state b = (Done tt, with_session s' b) /\
    (forall k v, session_state b !! k = Some v -> s' !! k = Some v) /\
    (forall k, session_state b !! k = None -> s' !! k = initial_value k) /\
    init_state (with_session s' b) = (Done tt, with_session s' b).
Proof.
  assert (Hrun : forall b0 : Browser, exists s',
             init_state b0 = (Done tt, with_session s' b0) /\
             forall k, s' !! k = match session_state b0 !! k with
                                 | Some v => Some v
                                 | None => initial_value k
                                 end).
  { intros b0. unfold init_state.
    rewrite (ui_bind_done _ _ _ _ _ (init_key_run _ _ _)).
    rewrite (ui_bind_done _ _ _ _ _ (init_key_run _ _ _)).
    rewrite init_key_run. cbn [session_state with_session].
    eexists. split; [reflexivity |]. intros k.
    set (s0 := session_state b0).
    set (s1 := match s0 !! "current_rec" with
               | Some _ => s0 | None => <["current_rec" := VNone]> s0 end).
    set (s2 := match s1 !! "last_latency_ms" with
               | Some _ => s1 | None => <["last_latency_ms" := VNone]> s1 end).
    assert (H1 : s1 !! k = match s0 !! k with
                           | Some v => Some v
                           | None => if String.eqb k "current_rec" then Some VNone
                                     else None
                           end).
    { unfold s1. destruct (String.eqb_spec k "current_rec") as [-> | Hne].
      - destruct (s0 !! "current_rec") eqn:E; [rewrite E; reflexivity |].
        rewrite lookup_insert_eq. reflexivity.
      - destruct (s0 !! "current_rec") eqn:E.
        + destruct (s0 !! k); reflexivity.
        + rewrite lookup_insert_ne by congruence. destruct (s0 !! k); reflexivity. }
    assert (H2 : s2 !! k = match s1 !! k with
                           | Some v => Some v
                           | None => if String.eqb k "last_latency_ms" then Some VNone
                                     else None
                           end).
    { unfold s2. destruct (String.eqb_spec k "last_latency_ms") as [-> | Hne].
      - destruct (s1 !! "last_latency_ms") eqn:E; [rewrite E; reflexivity |].
        rewrite lookup_insert_eq. reflexivity.
      - destruct (s1 !! "last_latency_ms") eqn:E.
        + destruct (s1 !! k); reflexivity.
        + rewrite lookup_insert_ne by congruence. destruct (s1 !! k); reflexivity. }
    assert (H3 : match s2 !! "logs" with
                 | Some _ => s2 | None => <["logs" := VList []]> s2 end !! k
                 = match s2 !! k with
                   | Some v => Some v
                   | None => if String.eqb k "logs" then Some (VList []) else None
                   end).
    { destruct (String.eqb_spec k "logs") as [-> | Hne].
      - destruct (s2 !! "logs") eqn:E; [rewrite E; reflexivity |].
        rewrite lookup_insert_eq. reflexivity.
      - destruct (s2 !! "logs") eqn:E.
        + destruct (s2 !! k); reflexivity.
        + rewrite lookup_insert_ne by congruence. destruct (s2 !! k); reflexivity. }
    rewrite H3, H2, H1. unfold initial_value.
    destruct (s0 !! k); [reflexivity |].
    destruct (String.eqb k "current_rec"); [reflexivity |].
    destruct (String.eqb k "last_latency_ms"); reflexivity. }
  destruct (Hrun b) as (s' & Hinit & Hs').
  exists s'. split; [exact Hinit |]. split; [| split].
  - intros k v Hk. rewrite Hs', Hk. reflexivity.
  - intros k Hk. rewrite Hs', Hk. reflexivity.
  - destruct (Hrun (with_session s' b)) as (s'' & Hinit' & Hs'').
    rewrite Hinit'. rewrite with_session_twice. f_equal. f_equal.
    apply map_eq. intros k. rewrite Hs''. cbn [session_state with_session].
    rewrite Hs'. destruct (session_state b !! k) eqn:E; [reflexivity |].
    destruct (initial_value k); reflexivity.
Qed.

(** X10: [init_state] never crashes and touches nothing but the session state,
    where it keeps every key that is set, with its value, and gives the three
    keys of the page their initial values where they are not set; running it
    again changes nothing. *)
Theorem init_state_keeps_session (b : Browser) :
  exists s',
    init_state b = (Done tt, with_session s' b) /\
    (forall k v, session_state b !! k = Some v -> s' !! k = Some v) /\
    (forall k, session_state b !! k = None -> s' !! k = initial_value k) /\
    init_state (with_session s' b) = (Done tt, with_session s' b).
Proof. exact (init_state_spec b). Qed.

(** ** The event log *)

Lemma log_event_run (event : value) (b : Browser) (l : list value) :
  session_state b !! "logs" = Some (VList l) ->
  log_event event b
  = (Done tt, with_session (<["logs" := VList (l ++ [event])]> (session_state b)) b).
Proof.
  intros H. unfold log_event, ui_bind, session_get. rewrite H. reflexivity.
Qed.

(** X11: [log_event] needs the list that [init_state] sets up: while the key
    [logs] is not set, or holds something that is not a list, the call raises
    [AttributeError] and leaves the session as it was. *)
Theorem log_event_needs_logs (event : value) (b : Browser) :
  (forall l, session_state b !! "logs" <> Some (VList l)) ->
  exists type attr, log_event event b = (Crash (AttributeError type attr), b).
Proof.
  intros H. unfold log_event, ui_bind, session_get.
  destruct (session_state b !! "logs") as [v |] eqn:Hv.
  - destruct v; try (eexists _, _; reflexivity).
    destruct (H l). reflexivity.
  - eexists _, _. reflexivity.
Qed.

Lemma log_event_needs_logs_witness :
  let b := mkBrowser ∅ [] (fun _ => false) 0 (fun _ => S754_zero false) 0
                     (fun _ => mkDatetime 2024 1 2 3 4 5 0) 0
                     (fun _ _ => HttpError "down") [] in
  exists type attr,
    log_event (VStr "event") b = (Crash (AttributeError type attr), b).
Proof.
  intros b. apply (log_event_needs_logs (VStr "event") b).
  intros l H. unfold b in H. cbn in H. rewrite lookup_empty in H. discriminate.
Defined.

Lemma for_each_log_event (events : list value) (b : Browser) (l : list value) :
  session_state b !! "logs" = Some (VList l) ->
  for_each events log_event b
  = (Done tt,
     with_session (<["logs" := VList (l ++ events)]> (session_state b)) b).
Proof.
  revert b l. induction events as [| e events IH]; intros b l Hl.
  - simpl. unfold ui_ret. rewrite app_nil_r, insert_id by exact Hl.
    rewrite with_session_same. reflexivity.
  - simpl for_each. rewrite (ui_bind_done _ _ _ _ _ (log_event_run e b l Hl)).
    rewrite (IH _ (l ++ [e])) by (cbn; apply lookup_insert_eq).
    cbn [session_state with_session]. rewrite insert_insert_eq, <- app_assoc.
    reflexivity.
Qed.

(** X12: once [init_state] has run on a session whose [logs], if set, is a list,
    logging never crashes: the events logged follow those already there, in
    the order of the calls, and no other key of the session changes. *)
Theorem log_events_in_order (events : list value) (b : Browser) (old : list value) :
  session_state b !! "logs" = None /\ old = [] \/
  session_state b !! "logs" = Some (VList old) ->
  exists b',
    ui_bind init_state (fun _ => for_each events log_event) b = (Done tt, b') /\
    session_state b' !! "logs" = Some (VList (old ++ events)) /\
    (forall k, k <> "logs" ->
       session_state b' !! k = session_state (snd (init_state b)) !! k) /\
    screen b' = screen b /\ sent b' = sent b.
Proof.
  intros Hlogs.
  destruct (init_state_spec b) as (s' & Hinit & Hkeep & Hfresh & _).
  assert (Hl : s' !! "logs" = Some (VList old)).
  { destruct Hlogs as [[Hnone ->] | Hsome].
    - rewrite (Hfresh _ Hnone). reflexivity.
    - apply Hkeep. exact Hsome. }
  rewrite (ui_bind_done _ _ _ _ _ Hinit).
  rewrite (for_each_log_event events _ old) by exact Hl.
  eexists. split; [reflexivity |]. cbn [session_state with_session screen sent].
  split; [apply lookup_insert_eq |]. split; [| split; reflexivity].
  intros k Hk. rewrite Hinit. cbn. rewrite lookup_insert_ne by congruence.
  reflexivity.
Qed.

Lemma log_events_in_order_witness :
  let b := mkBrowser ∅ [] (fun _ => false) 0 (fun _ => S754_zero false) 0
                     (fun _ => mkDatetime 2024 1 2 3 4 5 0) 0
                     (fun _ _ => HttpError "down") [] in
  exists b',
    ui_bind init_state (fun _ => for_each [VStr "a"; VStr "b"] log_event) b
    = (Done tt, b') /\
    session_state b' !! "logs" = Some (VList [VStr "a"; VStr "b"]).
Proof.
  intros b.
  destruct (log_events_in_order [VStr "a"; VStr "b"] b [])
    as (b' & Hrun & Hlogs & _).
  - left. split; reflexivity.
  - exists b'. split; [exact Hrun | exact Hlogs].
Defined.

(** ** The HTTP helpers *)

(** The outcomes of [fetch_recommendation]. *)
Lemma fetch_recommendation_spec (server_hint : option string) (b : Browser) :
  exists res b',
    fetch_recommendation server_hint b = (Done res, b') /\
    sent b' = sent b ++ [recommend_request server_hint] /\
    b' = mkBrowser (session_state b) (screen b') (clicked b) (picked b)
                   (perf_tape b) (perf_pos b') (wall_tape b) (wall_pos b)
                   (network b) (sent b') /\
    ((exists resp data,
        network b (length (sent b)) (recommend_request server_hint)
        = HttpResponse resp /\
        status_code resp = 200%Z /\ json resp = Json data /\
        res = (data, VFloat (elapsed_ms (perf_tape b (perf_pos b))
                                        (perf_tape b (S (perf_pos b))))) /\
        screen b' = screen b)
     \/
     ((forall resp data,
         network b (length (sent b)) (recommend_request server_hint)
         = HttpResponse resp ->
         status_code resp = 200%Z -> json resp <> Json data) /\
      res = (VNone, VNone) /\
      exists msg, screen b' = screen b ++ [error_call msg])).
Proof.
  assert (Hreq : forall k : http_outcome -> UI (value * value),
             fetch_recommendation server_hint b
             = ui_bind perf_counter (fun start =>
                 ui_bind (http (recommend_request server_hint)) (fun outcome =>
                   match outcome with
                   | HttpError e =>
                       ui_bind (st_call "error"
                                  [VStr ("Failed to contact backend: " +:+ e)])
                               (fun _ => ui_ret (VNone, VNone))
                   | HttpResponse resp =>
                       ui_bind perf_counter (fun stop =>
                         if negb (status_code resp =? 200)%Z then
                           ui_bind (st_call "error"
                                      [VStr ("Backend returned status "
                                             +:+ str_int (status_code resp)
                                             +:+ ": " +:+ text resp)])
                                   (fun _ => ui_ret (VNone, VNone))
                         else
                           match json resp with
                           | JsonError e =>
                               ui_bind (st_call "error"
                                          [VStr ("Failed to decode backend JSON: "
                                                 +:+ e)])
                                       (fun _ => ui_ret (VNone, VNone))
                           | Json data => ui_ret (data, VFloat (elapsed_ms start stop))
                           end)
                   end)) b).
  { intros _. unfold fetch_recommendation, recommend_request, hint_truthy.
    destruct server_hint as [s |]; [| reflexivity].
    destruct (String.eqb s ""); reflexivity. }
  rewrite (Hreq (fun _ => ui_ret (VNone, VNone))). clear Hreq.
  unfold ui_bind at 1. unfold perf_counter at 1.
  unfold ui_bind at 1. unfold http at 1.
  cbn [sent network tick_perf].
  destruct (network b (length (sent b)) (recommend_request server_hint))
    as [e | resp] eqn:Hout.
  - eexists _, _. split; [reflexivity |]. split; [reflexivity |].
    split; [reflexivity |]. right. split; [intros ? ? H; discriminate H |].
    split; [reflexivity |]. eexists. reflexivity.
  - unfold ui_bind at 1. unfold perf_counter at 1.
    destruct (Z.eqb_spec (status_code resp) 200) as [H200 | Hnot]; cbn [negb].
    + destruct (json resp) as [e | data] eqn:Hjson.
      * eexists _, _. split; [reflexivity |]. split; [reflexivity |].
        split; [reflexivity |]. right. split.
        { intros r d H _ Hd. injection H as <-. congruence. }
        split; [reflexivity |]. eexists. reflexivity.
      * eexists _, _. split; [reflexivity |]. split; [reflexivity |].
        split; [reflexivity |]. left. exists resp, data.
        repeat split; try assumption; reflexivity.
    + eexists _, _. split; [reflexivity |]. split; [reflexivity |].
      split; [reflexivity |]. right. split.
      { intros r d H H200 _. injection H as <-. contradiction. }
      split; [reflexivity |]. eexists. reflexivity.
Qed.

(** X13: [fetch_recommendation] never crashes.  It sends one GET request and
    changes nothing else but the screen and the position of the performance
    counter; the session state stays as it is.  When the answer has status 200 and a
    body that decodes, it returns the decoded body with the elapsed time and
    draws nothing; in every other case (no answer, another status, a body
    that does not decode) it returns [(None, None)] and draws one error. *)
Theorem fetch_recommendation_outcome (server_hint : option string) (b : Browser) :
  exists res b',
    fetch_recommendation server_hint b = (Done res, b') /\
    sent b' = sent b ++ [recommend_request server_hint] /\
    b' = mkBrowser (session_state b) (screen b') (clicked b) (picked b)
                   (perf_tape b) (perf_pos b') (wall_tape b) (wall_pos b)
                   (network b) (sent b') /\
    ((exists resp data,
        network b (length (sent b)) (recommend_request server_hint)
        = HttpResponse resp /\
        status_code resp = 200%Z /\ json resp = Json data /\
        res = (data, VFloat (elapsed_ms (perf_tape b (perf_pos b))
                                        (perf_tape b (S (perf_pos b))))) /\
        screen b' = screen b)
     \/
     ((forall resp data,
         network b (length (sent b)) (recommend_request server_hint)
         = HttpResponse resp ->
         status_code resp = 200%Z -> json resp <> Json data) /\
      res = (VNone, VNone) /\
      exists msg, screen b' = screen b ++ [error_call msg])).
Proof. exact (fetch_recommendation_spec server_hint b). Qed.

(** The outcomes of [send_rating]. *)
Lemma send_rating_spec (content_id : value) (rating : Z) (b : Browser) :
  exists ok b',
    send_rating content_id rating b = (Done ok, b') /\
    sent b' = sent b ++ [rate_request content_id rating] /\
    b' = mkBrowser (session_state b) (screen b') (clicked b) (picked b)
                   (perf_tape b) (perf_pos b) (wall_tape b) (wall_pos b)
                   (network b) (sent b') /\
    (ok = true <->
     exists resp,
       network b (length (sent b)) (rate_request content_id rating)
       = HttpResponse resp /\ status_code resp = 200%Z) /\
    (ok = true -> screen b' = screen b) /\
    (ok = false -> exists msg, screen b' = screen b ++ [error_call msg]).
Proof.
  unfold send_rating. fold (rate_request content_id rating).
  unfold ui_bind at 1. unfold http at 1.
  destruct (network b (length (sent b)) (rate_request content_id rating))
    as [e | resp] eqn:Hout.
  - eexists _, _. split; [reflexivity |]. split; [reflexivity |].
    split; [reflexivity |]. split; [| split].
    + split; [discriminate | intros [r [H _]]; discriminate H].
    + discriminate.
    + intros _. eexists. reflexivity.
  - destruct (Z.eqb_spec (status_code resp) 200) as [H200 | Hnot]; cbn [negb].
    + eexists _, _. split; [reflexivity |]. split; [reflexivity |].
      split; [reflexivity |]. split; [| split].
      * split; [intros _; exists resp; split; [reflexivity | exact H200] | reflexivity].
      * reflexivity.
      * discriminate.
    + eexists _, _. split; [reflexivity |]. split; [reflexivity |].
      split; [reflexivity |]. split; [| split].
      * split; [discriminate |]. intros [r [H H200]]. injection H as <-. contradiction.
      * discriminate.
      * intros _. eexists. reflexivity.
Qed.

(** X14: [send_rating] never crashes.  It sends one POST request carrying the
    [content_id] and the rating and changes nothing else but the screen; the
    session state stays as it is.  Its
    result is [True] exactly when an answer with status 200 comes back: the
    body of the answer is not looked at, also not its [status] field.  It
    draws one error when the result is [False] and nothing otherwise. *)
Theorem send_rating_outcome (content_id : value) (rating : Z) (b : Browser) :
  exists ok b',
    send_rating content_id rating b = (Done ok, b') /\
    sent b' = sent b ++ [rate_request content_id rating] /\
    b' = mkBrowser (session_state b) (screen b') (clicked b) (picked b)
                   (perf_tape b) (perf_pos b) (wall_tape b) (wall_pos b)
                   (network b) (sent b') /\
    (ok = true <->
     exists resp,
       network b (length (sent b)) (rate_request content_id rating)
       = HttpResponse resp /\ status_code resp = 200%Z) /\
    (ok = true -> screen b' = screen b) /\
    (ok = false -> exists msg, screen b' = screen b ++ [error_call msg]).
Proof. exact (send_rating_spec content_id rating b). Qed.

(** ** What every run of the page preserves *)

Section Invariant.

Variable repr_float : spec_float -> string.
Variable repr_str : string -> string.

(** A relation between the browser before and after a piece of the script,
    closed under the steps the script is made of; [acceptable] says which
    requests the relation lets through. *)
Variable R : Browser -> Browser -> Prop.
Variable acceptable : request -> Prop.

Hypothesis R_refl : forall b, R b b.
Hypothesis R_trans : forall b1 b2 b3, R b1 b2 -> R b2 b3 -> R b1 b3.
Hypothesis R_draw : forall c b, R b (draw c b).
Hypothesis R_tick_perf : forall b, R b (tick_perf b).
Hypothesis R_tick_wall : forall b, R b (tick_wall b).
Hypothesis R_set : forall k v b,
  k <> "logs" -> R b (with_session (<[k := v]> (session_state b)) b).
Hypothesis R_init_logs : forall b,
  session_state b !! "logs" = None ->
  R b (with_session (<["logs" := VList []]> (session_state b)) b).
Hypothesis R_append : forall e l b,
  session_state b !! "logs" = Some (VList l) ->
  R b (with_session (<["logs" := VList (l ++ [e])]> (session_state b)) b).
Hypothesis R_request : forall req b, acceptable req -> R b (record_request req b).
Hypothesis acceptable_get : forall s,
  In s SERVER_OPTIONS ->
  acceptable (recommend_request (if String.eqb s "auto" then None else Some s)).
Hypothesis acceptable_post : forall content_id rating,
  truthy content_id = true -> In rating [1; 2; 3; 4; 5]%Z ->
  acceptable (rate_request content_id rating).

Lemma steps_ret {A} (a : A) : steps R (ui_ret a).
Proof. intros b. apply R_refl. Qed.

Lemma steps_crash {A} (e : ui_exn) : steps R (@ui_crash A e).
Proof. intros b. apply R_refl. Qed.

Lemma steps_bind_post {A B} (Q : A -> Prop) (c : UI A) (k : A -> UI B) :
  (forall b a b', c b = (Done a, b') -> Q a) ->
  steps R c -> (forall a, Q a -> steps R (k a)) -> steps R (ui_bind c k).
Proof.
  intros HQ Hc Hk b. unfold ui_bind.
  pose proof (Hc b) as Hb. destruct (c b) as [[a | e] b'] eqn:Hrun; simpl in Hb.
  - eapply R_trans; [exact Hb |]. apply Hk. eapply HQ. exact Hrun.
  - exact Hb.
Qed.

Lemma steps_bind {A B} (c : UI A) (k : A -> UI B) :
  steps R c -> (forall a, steps R (k a)) -> steps R (ui_bind c k).
Proof.
  intros Hc Hk. apply (steps_bind_post (fun _ => True)); auto.
Qed.

Lemma steps_st_call w a : steps R (st_call w a).
Proof. intros b. apply R_draw. Qed.

Lemma steps_st_button label key :
  (forall k, key = Some k -> k <> "logs") -> steps R (st_button label key).
Proof.
  intros Hk b. unfold st_button. destruct key as [k |]; simpl.
  - eapply R_trans; [apply R_set, Hk; reflexivity | apply R_draw].
  - apply R_draw.
Qed.

Lemma steps_st_selectbox label options index : steps R (st_selectbox label options index).
Proof. intros b. apply R_draw. Qed.

Lemma steps_perf_counter : steps R perf_counter.
Proof. intros b. apply R_tick_perf. Qed.

Lemma steps_wall_utcnow : steps R wall_utcnow.
Proof. intros b. apply R_tick_wall. Qed.

Lemma steps_session_get key : steps R (session_get key).
Proof.
  intros b. unfold session_get. destruct (session_state b !! key); apply R_refl.
Qed.

Lemma steps_session_set key v : key <> "logs" -> steps R (session_set key v).
Proof. intros Hk b. apply R_set. exact Hk. Qed.

Lemma steps_value_get v k default : steps R (value_get v k default).
Proof. intros b. unfold value_get. destruct v; apply R_refl. Qed.

Lemma steps_http req : acceptable req -> steps R (http req).
Proof. intros Hreq b. apply R_request. exact Hreq. Qed.

Lemma steps_init_key key v :
  key <> "logs" \/ v = VList [] -> steps R (init_key key v).
Proof.
  intros Hk b. rewrite init_key_run. simpl.
  destruct (session_state b !! key) eqn:E.
  - rewrite with_session_same. apply R_refl.
  - destruct Hk as [Hk | ->]; [apply R_set; exact Hk |].
    destruct (String.eqb_spec key "logs") as [-> | Hne].
    + apply R_init_logs. exact E.
    + apply R_set. exact Hne.
Qed.

Lemma steps_init_state : steps R init_state.
Proof.
  unfold init_state.
  apply steps_bind; [apply steps_init_key; left; discriminate | intros _].
  apply steps_bind; [apply steps_init_key; left; discriminate | intros _].
  apply steps_init_key. right. reflexivity.
Qed.

Lemma steps_log_event event : steps R (log_event event).
Proof.
  intros b. unfold log_event, ui_bind, session_get.
  destruct (session_state b !! "logs") as [v |] eqn:E; [| apply R_refl].
  destruct v; try apply R_refl. simpl. apply R_append. exact E.
Qed.

Lemma fetch_recommendation_request (server_hint : option string) :
  fetch_recommendation server_hint
  = ui_bind perf_counter (fun start =>
      ui_bind (http (recommend_request server_hint)) (fun outcome =>
        match outcome with
        | HttpError e =>
            ui_bind (st_call "error" [VStr ("Failed to contact backend: " +:+ e)])
                    (fun _ => ui_ret (VNone, VNone))
        | HttpResponse resp =>
            ui_bind perf_counter (fun stop =>
              if negb (status_code resp =? 200)%Z then
                ui_bind (st_call "error"
                           [VStr ("Backend returned status "
                                  +:+ str_int (status_code resp)
                                  +:+ ": " +:+ text resp)])
                        (fun _ => ui_ret (VNone, VNone))
              else
                match json resp with
                | JsonError e =>
                    ui_bind (st_call "error"
                               [VStr ("Failed to decode backend JSON: " +:+ e)])
                            (fun _ => ui_ret (VNone, VNone))
                | Json data => ui_ret (data, VFloat (elapsed_ms start stop))
                end)
        end)).
Proof.
  unfold fetch_recommendation, recommend_request, hint_truthy.
  destruct server_hint as [s |]; [| reflexivity].
  destruct (String.eqb s ""); reflexivity.
Qed.

Ltac steps_auto :=
  repeat first
    [ apply steps_ret | apply steps_crash | apply steps_st_call
    | apply steps_perf_counter | apply steps_wall_utcnow
    | apply steps_session_get | apply steps_value_get | apply steps_log_event
    | apply steps_init_state
    | apply steps_session_set; discriminate
    | apply steps_bind; [| intros ?]
    | match goal with
      | |- steps R (if ?c then _ else _) => destruct c
      | |- steps R (match ?x with _ => _ end) => destruct x
      end ].

Lemma steps_fetch_recommendation server_hint :
  acceptable (recommend_request server_hint) ->
  steps R (fetch_recommendation server_hint).
Proof.
  intros Hreq. rewrite fetch_recommendation_request.
  apply steps_bind; [apply steps_perf_counter | intros start].
  apply steps_bind; [apply steps_http; exact Hreq | intros outcome].
  steps_auto.
Qed.

Lemma steps_send_rating content_id rating :
  acceptable (rate_request content_id rating) ->
  steps R (send_rating content_id rating).
Proof.
  intros Hreq. unfold send_rating. fold (rate_request content_id rating).
  apply steps_bind; [apply steps_http; exact Hreq | intros outcome].
  steps_auto.
Qed.

Lemma steps_next_recommendation server_hint :
  In server_hint SERVER_OPTIONS -> steps R (next_recommendation server_hint).
Proof.
  intros Hin. unfold next_recommendation.
  apply steps_bind;
    [apply steps_fetch_recommendation, acceptable_get; exact Hin | intros fetched].
  steps_auto.
Qed.

Lemma steps_rating_button current rating :
  In rating [1; 2; 3; 4; 5]%Z -> steps R (rating_button current rating).
Proof.
  intros Hin. unfold rating_button.
  apply steps_bind; [apply steps_st_button | intros pressed].
  { intros k Hk. injection Hk as <-. rewrite string_app_cons. discriminate. }
  destruct pressed; [| apply steps_ret].
  apply steps_bind; [apply steps_value_get | intros content_id].
  apply steps_bind; [| intros ok; steps_auto].
  destruct (truthy content_id) eqn:Ht; cbn [negb].
  - apply steps_send_rating, acceptable_post; assumption.
  - steps_auto.
Qed.

Lemma steps_for_each {A} (xs : list A) (body : A -> UI unit) :
  (forall x, In x xs -> steps R (body x)) -> steps R (for_each xs body).
Proof.
  induction xs as [| x xs IH]; intros H; simpl.
  - apply steps_ret.
  - apply steps_bind; [apply H; left; reflexivity | intros _].
    apply IH. intros y Hy. apply H. right. exact Hy.
Qed.

Lemma steps_content_column server_hint :
  In server_hint SERVER_OPTIONS ->
  steps R (content_column repr_float repr_str server_hint).
Proof.
  intros Hin. unfold content_column.
  apply steps_bind; [apply steps_st_call | intros _].
  apply steps_bind; [apply steps_st_button; discriminate | intros next].
  apply steps_bind.
  { destruct next; [apply steps_next_recommendation; exact Hin | apply steps_ret]. }
  intros _. apply steps_bind; [apply steps_session_get | intros current].
  destruct (is_None current); [apply steps_st_call |].
  apply steps_bind; [apply steps_value_get | intros title].
  apply steps_bind; [apply steps_st_call | intros _].
  apply steps_bind; [apply steps_value_get | intros body].
  apply steps_bind; [destruct (truthy body); apply steps_st_call | intros _].
  do 3 (apply steps_bind; [apply steps_st_call | intros _]).
  apply steps_for_each. intros r Hr. apply steps_rating_button. exact Hr.
Qed.

Lemma st_selectbox_option label options index b o b' :
  index < length options ->
  st_selectbox label options index b = (Done o, b') -> In o options.
Proof.
  intros Hidx H. unfold st_selectbox in H. injection H as <- _.
  destruct (options !! picked b) as [x |] eqn:E.
  - apply list_elem_of_In. eapply list_elem_of_lookup_2. exact E.
  - apply nth_In. exact Hidx.
Qed.

(** Every run of the page, crashed or not, is related to its start. *)
Lemma steps_main_content : steps R (main_content repr_float repr_str).
Proof.
  unfold main_content.
  do 4 (apply steps_bind; [steps_auto | intros _]).
  apply (steps_bind_post (fun o => In o SERVER_OPTIONS)).
  - intros b o b' H. eapply st_selectbox_option; [| exact H]. simpl. lia.
  - apply steps_st_selectbox.
  - intros server_hint Hin.
    do 2 (apply steps_bind; [apply steps_st_call | intros _]).
    apply steps_content_column. exact Hin.
Qed.

End Invariant.

(** ** The requests of a run *)

(** X15: whatever the user clicks and whatever the network answers, the requests
    that a run of the page sends are recommendation requests whose hint, if
    any, is one of the backend's known edges (never an empty or unknown one),
    and rating submissions that pass the validation of the backend's [rate]:
    it answers them with the success outcome, unless standard output cannot
    encode the log line, in which case it raises. *)
Theorem main_content_requests_fit_backend
    (repr_float : spec_float -> string) (repr_str : string -> string)
    (b : Browser) :
  exists new,
    sent (snd (main_content repr_float repr_str b)) = sent b ++ new /\
    Forall (backend_accepts repr_float repr_str) new.
Proof.
  apply (steps_main_content repr_float repr_str
           (fun b b' => exists new, sent b' = sent b ++ new /\
                                    Forall (backend_accepts repr_float repr_str) new)
           (backend_accepts repr_float repr_str)).
  - intros b0. exists []. split; [symmetry; apply app_nil_r | constructor].
  - intros b1 b2 b3 (n1 & H1 & F1) (n2 & H2 & F2). exists (n1 ++ n2).
    split; [rewrite H2, H1, app_assoc; reflexivity | apply Forall_app; split; assumption].
  - intros c b0. exists []. split; [symmetry; apply app_nil_r | constructor].
  - intros b0. exists []. split; [symmetry; apply app_nil_r | constructor].
  - intros b0. exists []. split; [symmetry; apply app_nil_r | constructor].
  - intros k v b0 _. exists []. split; [symmetry; apply app_nil_r | constructor].
  - intros b0 _. exists []. split; [symmetry; apply app_nil_r | constructor].
  - intros e l b0 _. exists []. split; [symmetry; apply app_nil_r | constructor].
  - intros req b0 Hreq. exists [req]. split; [reflexivity |].
    constructor; [exact Hreq | constructor].
  - intros s Hin. simpl. split; [reflexivity |].
    simpl in Hin. destruct Hin as [<- | [<- | [<- | [<- | []]]]]; simpl.
    + left. reflexivity.
    + right. exists "edge-us-1". split; [simpl; tauto | reflexivity].
    + right. exists "edge-eu-1". split; [simpl; tauto | reflexivity].
    + right. exists "edge-apac-1". split; [simpl; tauto | reflexivity].
  - intros content_id rating Ht _. simpl. split; [reflexivity |]. intros w.
    rewrite rate_run. unfold dict_get.
    rewrite lookup_insert_ne, !lookup_insert_eq by discriminate.
    rewrite Ht. reflexivity.
Qed.

(** ** The event log over a run *)

Lemma init_state_session_only (b : Browser) (c : ui_call) :
  exists s',
    init_state b = (Done tt, with_session s' b) /\
    init_state (draw c b) = (Done tt, with_session s' (draw c b)) /\
    init_state (draw c (with_session s' b))
    = (Done tt, with_session s' (draw c b)) /\
    (forall k, session_state b !! k = None -> s' !! k = initial_value k).
Proof.
  destruct (init_state_spec b) as (s' & Hinit & Hkeep & Hfresh & Hidem).
  destruct (init_state_spec (draw c b)) as (s1 & Hinit1 & Hkeep1 & Hfresh1 & _).
  destruct (init_state_spec (draw c (with_session s' b)))
    as (s2 & Hinit2 & Hkeep2 & Hfresh2 & _).
  assert (H1 : s1 = s').
  { apply map_eq. intros k. cbn in Hkeep1, Hfresh1.
    destruct (session_state b !! k) eqn:E.
    - rewrite (Hkeep1 _ _ E), (Hkeep _ _ E). reflexivity.
    - rewrite (Hfresh1 _ E), (Hfresh _ E). reflexivity. }
  assert (H2 : s2 = s').
  { apply map_eq. intros k. cbn in Hkeep2, Hfresh2.
    destruct (s' !! k) eqn:E.
    - apply Hkeep2. exact E.
    - rewrite (Hfresh2 _ E).
      destruct (session_state b !! k) eqn:E0.
      + rewrite (Hkeep _ _ E0) in E. discriminate.
      + rewrite (Hfresh _ E0) in E. exact E. }
  subst s1 s2. exists s'. repeat split; assumption.
Qed.

(** X16: a run of the page, crashed or not, never removes or rewrites an event
    that is in the log: the log it leaves is the one it found (the empty one
    on a fresh session) followed by the events of this run. *)
Theorem main_content_log_grows
    (repr_float : spec_float -> string) (repr_str : string -> string)
    (b : Browser) (old : list value) :
  session_state b !! "logs" = None /\ old = [] \/
  session_state b !! "logs" = Some (VList old) ->
  exists new,
    session_state (snd (main_content repr_float repr_str b)) !! "logs"
    = Some (VList (old ++ new)).
Proof.
  assert (Hgrow : forall b0 l,
             session_state b0 !! "logs" = Some (VList l) ->
             exists new,
               session_state (snd (main_content repr_float repr_str b0)) !! "logs"
               = Some (VList (l ++ new))).
  { intros b0 l Hold.
    apply (steps_main_content repr_float repr_str
             (fun b b' => forall l, session_state b !! "logs" = Some (VList l) ->
                                    exists new, session_state b' !! "logs"
                                                = Some (VList (l ++ new)))
             (fun _ => True)); try exact Hold.
    - intros b1 l0 Hl. exists []. rewrite app_nil_r. exact Hl.
    - intros b1 b2 b3 H12 H23 l0 Hl.
      destruct (H12 l0 Hl) as (n1 & H1). destruct (H23 _ H1) as (n2 & H2).
      exists (n1 ++ n2). rewrite app_assoc. exact H2.
    - intros c b1 l0 Hl. exists []. rewrite app_nil_r. exact Hl.
    - intros b1 l0 Hl. exists []. rewrite app_nil_r. exact Hl.
    - intros b1 l0 Hl. exists []. rewrite app_nil_r. exact Hl.
    - intros k v b1 Hk l0 Hl. exists []. rewrite app_nil_r. simpl.
      rewrite lookup_insert_ne by congruence. exact Hl.
    - intros b1 Hnone l0 Hl. congruence.
    - intros e l0 b1 Hl l' Hl'. exists [e]. simpl. rewrite lookup_insert_eq.
      congruence.
    - intros req b1 _ l0 Hl. exists []. rewrite app_nil_r. exact Hl.
    - intros; exact I.
    - intros; exact I. }
  intros [[Hnone ->] | Hsome]; [| apply Hgrow; exact Hsome].
  set (c := mkCall "set_page_config" [VStr "LiveStack Frontend"; VStr "wide"]).
  destruct (init_state_session_only b c) as (s' & Hinit & Hinit1 & Hinit2 & Hfresh).
  assert (Heq : main_content repr_float repr_str b
                = main_content repr_float repr_str (with_session s' b)).
  { unfold main_content. unfold ui_bind at 1. unfold st_call at 1.
    fold c. rewrite (ui_bind_done _ _ _ _ _ Hinit1).
    symmetry. unfold ui_bind at 1. unfold st_call at 1.
    fold c. rewrite (ui_bind_done _ _ _ _ _ Hinit2). reflexivity. }
  rewrite Heq. apply Hgrow. cbn. rewrite (Hfresh _ Hnone). reflexivity.
Qed.

Lemma main_content_log_grows_witness :
  let b := mkBrowser (<["logs" := VList [VStr "earlier"]]> ∅) []
                     (fun _ => true) 2 (fun _ => S754_zero false) 0
                     (fun _ => mkDatetime 2024 1 2 3 4 5 0) 0
                     (fun _ _ => HttpError "down") [] in
  exists new,
    session_state (snd (main_content example_repr_float example_repr_str b)) !! "logs"
    = Some (VList ([VStr "earlier"] ++ new)).
Proof.
  intros b.
  apply (main_content_log_grows example_repr_float example_repr_str b [VStr "earlier"]).
  right. reflexivity.
Defined.

(** ** The "Next recommendation" button *)

(** X17: when no recommendation comes back (no answer, a status other than 200, a
    body that does not decode, or the JSON value [null]), the handler of the
    button draws "Failed to fetch recommendation." last and leaves the
    session state, the current recommendation and the log included, as it
    was. *)
Theorem next_recommendation_failure_keeps_session
    (server_hint : string) (b : Browser) :
  (forall resp data,
     network b (length (sent b)) (recommend_request (hint_of server_hint))
     = HttpResponse resp ->
     status_code resp = 200%Z -> json resp = Json data -> data = VNone) ->
  exists b' earlier,
    next_recommendation server_hint b = (Done tt, b') /\
    session_state b' = session_state b /\
    screen b' = screen b ++ earlier ++ [error_call "Failed to fetch recommendation."] /\
    wall_pos b' = wall_pos b.
Proof.
  intros Hfail. unfold next_recommendation. fold (hint_of server_hint).
  destruct (fetch_recommendation_spec (hint_of server_hint) b)
    as (res & b1 & Hfetch & Hsent & Hframe & Hcases).
  rewrite (ui_bind_done _ _ _ _ _ Hfetch).
  assert (Hnone : is_None (fst res) = true /\
                  exists earlier, screen b1 = screen b ++ earlier).
  { destruct Hcases as [(resp & data & Hout & H200 & Hjson & -> & Hscreen)
                       | (_ & -> & msg & Hscreen)].
    - rewrite (Hfail resp data Hout H200 Hjson). split; [reflexivity |].
      exists []. rewrite app_nil_r. exact Hscreen.
    - split; [reflexivity |]. eexists. exact Hscreen. }
  destruct Hnone as [Hnone [earlier Hscreen]]. cbv zeta. rewrite Hnone.
  eexists _, earlier. split; [reflexivity |]. cbn [session_state screen wall_pos draw].
  rewrite Hframe. cbn. rewrite Hscreen, <- app_assoc. repeat split; reflexivity.
Qed.

Lemma next_recommendation_failure_keeps_session_witness :
  let b := mkBrowser (<["logs" := VList [VStr "earlier"]]> ∅) []
                     (fun _ => true) 2 (fun _ => S754_zero false) 0
                     (fun _ => mkDatetime 2024 1 2 3 4 5 0) 0
                     (fun _ _ => HttpError "connection refused") [] in
  exists b' earlier,
    next_recommendation "edge-eu-1" b = (Done tt, b') /\
    session_state b' = session_state b /\
    screen b' = screen b ++ earlier ++ [error_call "Failed to fetch recommendation."] /\
    wall_pos b' = wall_pos b.
Proof.
  intros b. apply (next_recommendation_failure_keeps_session "edge-eu-1" b).
  intros resp data H. discriminate H.
Defined.

(** X18: when a JSON object comes back with status 200 and the session holds a
    log, the handler stores the object as the current recommendation, stores
    the elapsed time, and appends one [recommend] event that carries the
    object's [content_id], [title], [server_id] and [server_region] ([None]
    for a field the object lacks), the elapsed time and the time of the
    dashboard's clock. *)
Theorem next_recommendation_stores_and_logs
    (server_hint : string) (b : Browser) (resp : http_response)
    (items : list (string * value)) (log : list value) :
  network b (length (sent b)) (recommend_request (hint_of server_hint))
  = HttpResponse resp ->
  status_code resp = 200%Z -> json resp = Json (VDict items) ->
  session_state b !! "logs" = Some (VList log) ->
  exists b',
    next_recommendation server_hint b = (Done tt, b') /\
    let latency := VFloat (elapsed_ms (perf_tape b (perf_pos b))
                                      (perf_tape b (S (perf_pos b)))) in
    session_state b'
    = <["logs" := VList (log ++ [recommend_event
                                   (isoformat (wall_tape b (wall_pos b)))
                                   items latency])]>
        (<["last_latency_ms" := latency]>
           (<["current_rec" := VDict items]> (session_state b))) /\
    screen b' = screen b /\
    sent b' = sent b ++ [recommend_request (hint_of server_hint)].
Proof.
  intros Hout H200 Hjson Hlog. unfold next_recommendation. fold (hint_of server_hint).
  destruct (fetch_recommendation_spec (hint_of server_hint) b)
    as (res & b1 & Hfetch & Hsent & Hframe & Hcases).
  rewrite (ui_bind_done _ _ _ _ _ Hfetch).
  destruct Hcases as [(resp' & data & Hout' & _ & Hjson' & -> & Hscreen)
                     | (Hno & _)].
  2: { destruct (Hno resp (VDict items) Hout H200 Hjson). }
  assert (resp' = resp) by congruence. subst resp'.
  assert (data = VDict items) by congruence. subst data.
  cbv zeta. cbn [fst snd is_None].
  unfold ui_bind at 1. unfold session_set at 1.
  unfold ui_bind at 1. unfold session_set at 1.
  unfold ui_bind at 1. unfold wall_utcnow at 1.
  unfold value_get, ui_bind at 1. unfold ui_ret at 1.
  unfold ui_bind at 1. unfold ui_ret at 1.
  unfold ui_bind at 1. unfold ui_ret at 1.
  unfold ui_bind at 1. unfold ui_ret at 1.
  erewrite log_event_run.
  2: { cbn. rewrite !lookup_insert_ne by discriminate.
       rewrite Hframe. cbn. exact Hlog. }
  eexists. split; [reflexivity |].
  cbn [session_state with_session tick_wall screen sent wall_tape wall_pos].
  rewrite Hframe. cbn [session_state with_session tick_wall screen sent wall_tape wall_pos].
  rewrite Hscreen, Hsent. repeat split; reflexivity.
Qed.

Lemma next_recommendation_stores_and_logs_witness :
  let items := [("content_id", VStr "abc"); ("title", VStr "T")] in
  let b := mkBrowser (<["logs" := VList []]> ∅) []
                     (fun _ => true) 2 (fun k => float_of_int (Z.of_nat k)) 0
                     (fun _ => mkDatetime 2024 1 2 3 4 5 0) 0
                     (fun _ _ => HttpResponse (mkResponse 200 "" (Json (VDict items))))
                     [] in
  exists b',
    next_recommendation "edge-eu-1" b = (Done tt, b') /\
    session_state b' !! "current_rec" = Some (VDict items) /\
    session_state b' !! "logs"
    = Some (VList [recommend_event "2024-01-02T03:04:05" items
                     (VFloat (float_of_int 1000))]).
Proof.
  intros items b.
  destruct (next_recommendation_stores_and_logs "edge-eu-1" b
              (mkResponse 200 "" (Json (VDict items))) items [])
    as (b' & Hrun & Hsession & _); try reflexivity.
  exists b'. split; [exact Hrun |]. cbv zeta in Hsession. rewrite Hsession.
  split; [reflexivity |]. rewrite lookup_insert_eq. reflexivity.
Defined.

(** X19: when the body with status 200 decodes to a JSON value that is neither
    [null] nor an object, the handler crashes with [AttributeError] while
    building the log entry: by then it has overwritten the current
    recommendation and the latency, and it has logged nothing. *)
Theorem next_recommendation_non_object_crashes
    (server_hint : string) (b : Browser) (resp : http_response) (data : value) :
  network b (length (sent b)) (recommend_request (hint_of server_hint))
  = HttpResponse resp ->
  status_code resp = 200%Z -> json resp = Json data ->
  data <> VNone -> (forall items, data <> VDict items) ->
  exists b',
    next_recommendation server_hint b
    = (Crash (AttributeError (type_name data) "get"), b') /\
    session_state b'
    = <["last_latency_ms" := VFloat (elapsed_ms (perf_tape b (perf_pos b))
                                                (perf_tape b (S (perf_pos b))))]>
        (<["current_rec" := data]> (session_state b)).
Proof.
  intros Hout H200 Hjson Hnn Hnd. unfold next_recommendation. fold (hint_of server_hint).
  destruct (fetch_recommendation_spec (hint_of server_hint) b)
    as (res & b1 & Hfetch & Hsent & Hframe & Hcases).
  rewrite (ui_bind_done _ _ _ _ _ Hfetch).
  destruct Hcases as [(resp' & data' & Hout' & _ & Hjson' & -> & Hscreen)
                     | (Hno & _)].
  2: { destruct (Hno resp data Hout H200 Hjson). }
  assert (resp' = resp) by congruence. subst resp'.
  assert (data' = data) by congruence. subst data'.
  cbv zeta. cbn [fst snd].
  assert (Hn : is_None data = false) by (destruct data; [contradiction | reflexivity ..]).
  rewrite Hn.
  unfold ui_bind at 1. unfold session_set at 1.
  unfold ui_bind at 1. unfold session_set at 1.
  unfold ui_bind at 1. unfold wall_utcnow at 1.
  assert (Hget : forall b0, value_get data "content_id" VNone b0
                            = (Crash (AttributeError (type_name data) "get"), b0)).
  { intros b0. destruct data; try reflexivity. destruct (Hnd items). reflexivity. }
  rewrite (ui_bind_crash _ _ _ _ _ (Hget _)).
  eexists. split; [reflexivity |]. cbn. rewrite Hframe. reflexivity.
Qed.

Lemma next_recommendation_non_object_crashes_witness :
  let b := mkBrowser (<["logs" := VList []]> ∅) []
                     (fun _ => true) 2 (fun k => float_of_int (Z.of_nat k)) 0
                     (fun _ => mkDatetime 2024 1 2 3 4 5 0) 0
                     (fun _ _ => HttpResponse (mkResponse 200 "[]" (Json (VList []))))
                     [] in
  exists b',
    next_recommendation "auto" b = (Crash (AttributeError "list" "get"), b') /\
    session_state b' !! "current_rec" = Some (VList []) /\
    session_state b' !! "logs" = Some (VList []).
Proof.
  intros b.
  destruct (next_recommendation_non_object_crashes "auto" b
              (mkResponse 200 "[]" (Json (VList []))) (VList []))
    as (b' & Hrun & Hsession); try reflexivity; try discriminate.
  exists b'. split; [exact Hrun |]. rewrite Hsession. split; reflexivity.
Defined.

(** ** The rating buttons *)

Lemma rate_key_not (rating : Z) (k : string) :
  String.get 0 k <> Some "r"%char -> "rate_" +:+ str_int rating <> k.
Proof. intros Hk <-. apply Hk. reflexivity. Qed.

(** X20: a click on a rating button logs exactly one [rate] event, sent or not:
    the rating is submitted only when the current recommendation has a truthy
    [content_id], and the event records as [success] whether it was
    submitted and answered with status 200.  Besides the log, the session
    holds the value of the button under its key, as it does already when the
    button was drawn by the run before. *)
Theorem rating_button_logs_once
    (items : list (string * value)) (rating : Z) (b : Browser)
    (log : list value) (latency : value) :
  clicked b ("rate_" +:+ str_int rating) = true ->
  session_state b !! "logs" = Some (VList log) ->
  session_state b !! "last_latency_ms" = Some latency ->
  exists ok b',
    rating_button (VDict items) rating b = (Done tt, b') /\
    session_state b'
    = <["logs" := VList (log ++ [rate_event (isoformat (wall_tape b (wall_pos b)))
                                            items latency rating ok])]>
        (<["rate_" +:+ str_int rating := VBool true]> (session_state b)) /\
    (session_state b !! ("rate_" +:+ str_int rating) = Some (VBool true) ->
     session_state b'
     = <["logs" := VList (log ++ [rate_event (isoformat (wall_tape b (wall_pos b)))
                                             items latency rating ok])]>
         (session_state b)) /\
    sent b' = sent b ++ (if truthy (field items "content_id")
                         then [rate_request (field items "content_id") rating]
                         else []) /\
    (ok = true <->
     truthy (field items "content_id") = true /\
     exists resp,
       network b (length (sent b)) (rate_request (field items "content_id") rating)
       = HttpResponse resp /\ status_code resp = 200%Z).
Proof.
  intros Hclick Hlog Hlat. unfold rating_button.
  unfold ui_bind at 1. unfold st_button at 1. rewrite Hclick.
  set (key := "rate_" +:+ str_int rating) in *.
  set (s1 := <[key := VBool true]> (session_state b)).
  set (b1 := draw (mkCall "button" [VStr (str_int rating); VStr key])
                  (with_session s1 b)).
  assert (Hlog1 : s1 !! "logs" = Some (VList log)).
  { unfold s1. rewrite lookup_insert_ne; [exact Hlog |].
    apply rate_key_not. discriminate. }
  assert (Hlat1 : s1 !! "last_latency_ms" = Some latency).
  { unfold s1. rewrite lookup_insert_ne; [exact Hlat |].
    apply rate_key_not. discriminate. }
  unfold value_get at 1. unfold ui_bind at 1. unfold ui_ret at 1.
  fold (field items "content_id"). fold (field items "title").
  fold (field items "server_id"). fold (field items "server_region").
  set (cid := field items "content_id").
  assert (Hok : exists ok b2,
             (if negb (truthy cid)
              then ui_bind (st_call "error"
                              [VStr "Current content has no content_id; cannot send rating."])
                           (fun _ => ui_ret false)
              else send_rating cid rating) b1 = (Done ok, b2) /\
             b2 = mkBrowser s1 (screen b2) (clicked b) (picked b)
                            (perf_tape b) (perf_pos b) (wall_tape b) (wall_pos b)
                            (network b) (sent b2) /\
             sent b2 = sent b ++ (if truthy cid then [rate_request cid rating] else []) /\
             (ok = true <->
              truthy cid = true /\
              exists resp,
                network b (length (sent b)) (rate_request cid rating)
                = HttpResponse resp /\ status_code resp = 200%Z)).
  { destruct (truthy cid) eqn:Ht; cbn [negb].
    - destruct (send_rating_spec cid rating b1)
        as (ok & b2 & Hsend & Hsent & Hframe & Hiff & _).
      exists ok, b2. split; [exact Hsend |]. split; [exact Hframe |].
      split; [exact Hsent |]. rewrite Hiff. cbn. tauto.
    - eexists _, _. split; [reflexivity |]. split; [reflexivity |].
      split; [cbn; symmetry; apply app_nil_r |].
      split; [discriminate | intros [H _]; discriminate H]. }
  destruct Hok as (ok & b2 & Hrun & Hframe & Hsent & Hiff).
  rewrite (ui_bind_done _ _ _ _ _ Hrun).
  unfold ui_bind at 1. unfold wall_utcnow at 1.
  unfold value_get. unfold ui_bind at 1. unfold ui_ret at 1.
  unfold ui_bind at 1. unfold ui_ret at 1.
  unfold ui_bind at 1. unfold ui_ret at 1.
  unfold ui_bind at 1. unfold session_get at 1.
  assert (Hs2 : session_state b2 = s1) by (rewrite Hframe; reflexivity).
  assert (Hw2 : wall_tape b2 (wall_pos b2) = wall_tape b (wall_pos b))
    by (rewrite Hframe; reflexivity).
  cbn [session_state tick_wall]. rewrite Hs2, Hlat1, Hw2.
  assert (Hle : forall e,
             log_event e (tick_wall b2)
             = (Done tt, with_session (<["logs" := VList (log ++ [e])]>
                                         (session_state (tick_wall b2)))
                                      (tick_wall b2))).
  { intros e. apply log_event_run. cbn. rewrite Hs2. exact Hlog1. }
  rewrite (ui_bind_done _ _ _ _ _ (Hle _)).
  exists ok. destruct ok; eexists; (split; [reflexivity |]);
    cbn [session_state with_session tick_wall draw sent]; rewrite Hs2;
    (split; [reflexivity |]);
    (split; [intros Hreg; unfold s1; rewrite (insert_id _ _ _ Hreg); reflexivity |]);
    (split; [exact Hsent | exact Hiff]).
Qed.

Lemma rating_button_logs_once_witness :
  let items := [("title", VStr "T")] in
  let b := mkBrowser (<["last_latency_ms" := VNone]> (<["logs" := VList []]> ∅)) []
                     (fun _ => true) 2 (fun _ => S754_zero false) 0
                     (fun _ => mkDatetime 2024 1 2 3 4 5 0) 0
                     (fun _ _ => HttpResponse (mkResponse 200 "" (JsonError "empty")))
                     [] in
  exists b',
    rating_button (VDict items) 3 b = (Done tt, b') /\
    session_state b' !! "logs"
    = Some (VList [rate_event "2024-01-02T03:04:05" items VNone 3 false]) /\
    sent b' = [].
Proof.
  intros items b.
  destruct (rating_button_logs_once items 3 b [] VNone)
    as (ok & b' & Hrun & Hsession & _ & Hsent & Hiff); try reflexivity.
  exists b'. split; [exact Hrun |].
  assert (ok = false) as ->.
  { destruct ok; [| reflexivity]. destruct Hiff as [H _].
    destruct (H eq_refl) as [Ht _]. discriminate Ht. }
  rewrite Hsession, lookup_insert_eq. split; [reflexivity | exact Hsent].
Defined.

(** ** A run without a click *)

(** X21: with no button clicked, a run of the page completes without sending a
    request or reading a clock.  It stores no recommendation and logs
    nothing: it leaves the session state as [init_state] sets it up, except
    that, when there is a current recommendation to rate, the five rating
    buttons it draws are registered under their keys, unclicked.  (The
    session's current recommendation, if set, is [None] or a JSON object.) *)
Theorem main_content_idle
    (repr_float : spec_float -> string) (repr_str : string -> string)
    (b : Browser) :
  (forall key, clicked b key = false) ->
  (session_state b !! "current_rec" = None \/
   session_state b !! "current_rec" = Some VNone \/
   exists items, session_state b !! "current_rec" = Some (VDict items)) ->
  exists b',
    main_content repr_float repr_str b = (Done tt, b') /\
    session_state b'
    = match session_state (snd (init_state b)) !! "current_rec" with
      | Some (VDict _) =>
          <["rate_5" := VBool false]>
            (<["rate_4" := VBool false]>
               (<["rate_3" := VBool false]>
                  (<["rate_2" := VBool false]>
                     (<["rate_1" := VBool false]>
                        (session_state (snd (init_state b)))))))
      | _ => session_state (snd (init_state b))
      end /\
    session_state b' !! "current_rec" = session_state (snd (init_state b)) !! "current_rec" /\
    session_state b' !! "last_latency_ms"
    = session_state (snd (init_state b)) !! "last_latency_ms" /\
    session_state b' !! "logs" = session_state (snd (init_state b)) !! "logs" /\
    sent b' = sent b /\ perf_pos b' = perf_pos b /\ wall_pos b' = wall_pos b.
Proof.
  intros Hclick Hcur.
  set (c := mkCall "set_page_config" [VStr "LiveStack Frontend"; VStr "wide"]).
  destruct (init_state_session_only b c) as (s' & Hinit & Hinit1 & _ & Hfresh).
  destruct (init_state_spec b) as (s0 & Hinit0 & Hkeep & _ & _).
  assert (Hs0 : session_state (snd (init_state b)) = s') by (rewrite Hinit; reflexivity).
  assert (Hs0' : s0 = s').
  { rewrite Hinit0 in Hs0. exact Hs0. }
  subst s0. rewrite Hs0.
  assert (Hcur' : s' !! "current_rec" = Some VNone \/
                  exists items, s' !! "current_rec" = Some (VDict items)).
  { destruct Hcur as [H | [H | [items H]]].
    - left. rewrite (Hfresh _ H). reflexivity.
    - left. apply Hkeep. exact H.
    - right. exists items. apply Hkeep. exact H. }
  unfold main_content.
  unfold ui_bind at 1. unfold st_call at 1. fold c.
  rewrite (ui_bind_done _ _ _ _ _ Hinit1).
  do 2 (unfold ui_bind at 1; unfold st_call at 1).
  unfold ui_bind at 1. unfold st_selectbox at 1.
  do 2 (unfold ui_bind at 1; unfold st_call at 1).
  unfold content_column.
  unfold ui_bind at 1. unfold st_call at 1.
  unfold ui_bind at 1. unfold st_button at 1.
  cbn [clicked draw with_session]. rewrite Hclick.
  unfold ui_bind at 1. unfold ui_ret at 1.
  unfold ui_bind at 1. unfold session_get at 1.
  cbn [session_state draw with_session].
  destruct Hcur' as [Hv | [items Hv]]; rewrite Hv; cbn [is_None].
  - eexists. split; [reflexivity |].
    cbn [session_state draw with_session sent perf_pos wall_pos].
    rewrite ?Hv. repeat split; reflexivity.
  - unfold value_get.
    unfold ui_bind at 1. unfold ui_ret at 1.
    unfold ui_bind at 1. unfold st_call at 1.
    unfold ui_bind at 1. unfold ui_ret at 1.
    assert (Hwrite : forall body0 : value, forall b0 : Browser,
               exists call,
                 (if truthy body0 then st_call "write" [body0]
                  else st_call "write" [VStr "_No body provided by backend._"]) b0
                 = (Done tt, draw call b0)).
    { intros body0 b0. destruct (truthy body0); eexists; reflexivity. }
    match goal with
    | |- context [ui_bind (if truthy ?v then _ else _) _ ?b0] =>
        destruct (Hwrite v b0) as [call Hcall]
    end.
    rewrite (ui_bind_done _ _ _ _ _ Hcall).
    do 3 (unfold ui_bind at 1; unfold st_call at 1).
    cbn [for_each]. unfold rating_button.
    do 5 (unfold ui_bind at 1; unfold ui_bind at 1; unfold st_button at 1;
          cbn [clicked draw with_session session_state]; rewrite !Hclick;
          unfold ui_ret at 1).
    eexists. split; [reflexivity |].
    cbn [session_state draw with_session sent perf_pos wall_pos].
    split; [reflexivity |].
    split; [rewrite !lookup_insert_ne by (apply rate_key_not; discriminate);
            exact Hv |].
    split; [rewrite !lookup_insert_ne by (apply rate_key_not; discriminate);
            reflexivity |].
    split; [rewrite !lookup_insert_ne by (apply rate_key_not; discriminate);
            reflexivity |].
    repeat split; reflexivity.
Qed.

Lemma main_content_idle_witness :
  let rec := VDict [("content_id", VStr "abc-123"); ("title", VStr "T")] in
  let b := mkBrowser (<["current_rec" := rec]> ∅) [] (fun _ => false) 0
                     (fun _ => S754_zero false) 0
                     (fun _ => mkDatetime 2024 1 2 3 4 5 0) 0
                     (fun _ _ => HttpError "down") [] in
  exists b',
    main_content example_repr_float example_repr_str b = (Done tt, b') /\
    session_state b' !! "rate_3" = Some (VBool false) /\
    session_state b' !! "current_rec" = Some rec /\
    session_state b' !! "logs" = Some (VList []) /\
    sent b' = [] /\ perf_pos b' = 0 /\ wall_pos b' = 0.
Proof.
  intros rec b.
  destruct (main_content_idle example_repr_float example_repr_str b)
    as (b' & Hrun & Hsession & Hrec & _ & Hlogs & Hsent & Hperf & Hwall).
  - reflexivity.
  - right. right. eexists. reflexivity.
  - exists b'. split; [exact Hrun |].
    split; [rewrite Hsession; vm_compute; reflexivity |].
    split; [rewrite Hrec; vm_compute; reflexivity |].
    split; [rewrite Hlogs; vm_compute; reflexivity |].
    split; [exact Hsent |]. split; [exact Hperf | exact Hwall].
Defined.
